(** * resume_compare: keyword extraction and similarity scoring

    Shallow embedding of [src/preprocessor.py] (class [DataPreprocessor])
    and [src/comparator.py] (class [DataComparator]).

    Conventions of the embedding
    - a Python [str] is the list of its Unicode code points ([list N]);
      the regular expressions of [_clean_text] work code point by code
      point, and the Cyrillic ranges do not fit a byte string;
    - a Python exception is a value of [exn]; a call that may raise
      returns [result A], threaded through a small error monad;
    - a Python [float] is an exact rational ([Q]); the only float
      expressions of the program are [k / n * 100] and a cosine times
      [100], both followed by [round(_, 2)];
    - NLTK, spaCy, scikit-learn and [str.lower] are collaborators of the
      program: they are fields of the classes [Builtins], [NLTK], [SpaCy]
      and [Sklearn], and the program is defined over any implementation
      of them.  Module [Fixture] gives small implementations on which the
      pipeline can be run. *)

From Stdlib Require Import List NArith ZArith QArith Qround Bool String Ascii
  Lia Sorted.
Import ListNotations.

Set Implicit Arguments.
Close Scope Q_scope.
Open Scope N_scope.

(** ** Python strings *)

Definition char := N.
Definition str := list char.

Definition str_eq_dec : forall a b : str, {a = b} + {a <> b} :=
  list_eq_dec N.eq_dec.

Definition str_eqb (a b : str) : bool :=
  if str_eq_dec a b then true else false.

(** [x in l] for a list of strings. *)
Definition py_in (x : str) (l : list str) : bool :=
  if in_dec str_eq_dec x l then true else false.

(** An ASCII literal as a Python string. *)
Definition py (s : string) : str :=
  map N_of_ascii (list_ascii_of_string s).

Definition between (lo hi c : char) : bool :=
  (N.leb lo c && N.leb c hi)%bool.

(** Character classes of the two patterns of [_clean_text]. *)
Definition is_digit (c : char) : bool := between 48 57 c.          (* 0-9 *)
Definition is_latin (c : char) : bool :=
  (between 97 122 c || between 65 90 c)%bool.                     (* a-zA-Z *)
Definition is_cyrillic (c : char) : bool :=
  (between 1072 1103 c || between 1040 1071 c)%bool.              (* а-яА-Я *)

(** [\s] of a [str] pattern: the code points for which [str.isspace]
    holds. *)
Definition is_space (c : char) : bool :=
  (between 9 13 c || between 28 32 c || N.eqb c 133 || N.eqb c 160
   || N.eqb c 5760 || between 8192 8202 c || N.eqb c 8232
   || N.eqb c 8233 || N.eqb c 8239 || N.eqb c 8287
   || N.eqb c 12288)%bool.

Definition slash : char := 47.
Definition space : char := 32.

Close Scope N_scope.

(** [re.sub("[^...]", "", text)]: delete every code point outside the
    class. *)
Definition re_sub_outside (keep : char -> bool) (text : str) : str :=
  filter keep text.

(** [text.replace(old, new)] for one-character [old] and [new]. *)
Definition replace_char (old new : char) (text : str) : str :=
  map (fun c => if N.eqb c old then new else c) text.

(** ** Exceptions *)

Inductive exn : Type :=
| ZeroDivisionError   (* int / 0 *)
| NameError           (* a local read before any assignment
                         (UnboundLocalError is a NameError) *)
| ValueError          (* CountVectorizer: empty vocabulary *)
| IndexError.

Inductive result (A : Type) : Type :=
| Ok (a : A)
| Raise (e : exn).
Arguments Ok {A} a.
Arguments Raise {A} e.

Definition bind {A B} (m : result A) (k : A -> result B) : result B :=
  match m with
  | Ok a => k a
  | Raise e => Raise e
  end.

Declare Scope py_scope.
Delimit Scope py_scope with pyM.
Notation "x <- m ;; k" := (bind m (fun x => k))
  (at level 61, m at next level, right associativity) : py_scope.
Notation "'ret' a" := (Ok a) (at level 60) : py_scope.
Open Scope py_scope.

(** A local variable that is assigned on some branches only: reading it
    while it is unbound raises. *)
Definition read_local {A} (v : option A) : result A :=
  match v with
  | Some a => Ok a
  | None => Raise NameError
  end.

(** [[w for w in l if cond(w)]] where evaluating [cond] may raise: the
    condition is evaluated once per element, left to right, so nothing is
    raised on an empty list. *)
Fixpoint filterM {A} (cond : A -> result bool) (l : list A)
  : result (list A) :=
  match l with
  | [] => ret []
  | w :: rest =>
      b <- cond w ;;
      out <- filterM cond rest ;;
      ret (if b then w :: out else out)
  end.

(** ** Collaborators *)

(** [str.lower]. *)
Class Builtins := {
  lower : str -> str
}.

(** [str(item)], used by [_filter_token_tag] on the tokens of either
    tagger. *)
Class PyStr (T : Type) := py_str : T -> str.

#[export] Instance str_PyStr : PyStr str := fun s => s.

(** NLTK: [word_tokenize], [pos_tag] and [stopwords.words]. *)
Class NLTK := {
  word_tokenize : str -> list str;
  pos_tag : list str -> list (str * str);
  stopwords_words : str -> list str
}.

(** A spaCy token: [str(tok)] is its text, [tok.tag_] its fine-grained
    tag. *)
Record Token := { text : str; tag_ : str }.

#[export] Instance Token_PyStr : PyStr Token := text.

(** spaCy: [spacy.load], calling the pipeline on a text, and
    [nlp.Defaults.stop_words]. *)
Class SpaCy := {
  Language : Type;
  spacy_load : str -> Language;
  nlp_call : Language -> str -> list Token;
  Defaults_stop_words : Language -> list str
}.

(** scikit-learn: the analyzer built by [CountVectorizer()] (lower-casing
    and token pattern), and the floating-point square root used by the
    row normalisation. *)
Class Sklearn := {
  analyzer : str -> list str;
  np_sqrt : Q -> Q
}.

(** Language codes. *)
Definition ru : str := py "ru".
Definition en : str := py "en".

Definition supported (lang : str) : bool :=
  (str_eqb lang ru || str_eqb lang en)%bool.

(** ** preprocessor.py *)

Module DataPreprocessor.

(** [_clean_text]: two independent [if]s, then the unconditional
    replacement of [/]. *)
Definition _clean_text (text : str) (lang : str) : str :=
  let text :=
    if str_eqb lang ru
    then re_sub_outside
           (fun c => is_cyrillic c || is_digit c || is_space c
                     || N.eqb c slash)%bool text
    else text in
  let text :=
    if str_eqb lang en
    then re_sub_outside
           (fun c => is_latin c || is_digit c || is_space c
                     || N.eqb c slash)%bool text
    else text in
  replace_char slash space text.

(** [_filter_token_tag]: the tokens whose tag is in the filter list, each
    converted with [str]. *)
Definition _filter_token_tag {T} `{PyStr T}
    (tagged_token_list : list (T * str)) (filter_tag_list : list str)
  : list str :=
  let filtered_token_list :=
    map fst (filter (fun t => py_in (snd t) filter_tag_list)
               tagged_token_list) in
  map py_str filtered_token_list.

(** The two literal filter lists of the pipelines. *)
Definition nltk_filter_tag_list : list str :=
  [py "NNP"; py "NN"; py "VBP"; py "JJ"].
Definition spacy_filter_tag_list : list str := [py "NNP"].

Section Pipelines.
Context `{Builtins} `{NLTK} `{SpaCy}.

(** One iteration of the loop of [_unique_tokens]. *)
Definition unique_step (unique_token_list : list str) (x : str)
  : list str :=
  let x := lower x in
  if negb (py_in x unique_token_list)
  then unique_token_list ++ [x]
  else unique_token_list.

Definition _unique_tokens (token_list : list str) : list str :=
  fold_left unique_step token_list [].

Definition _nltk_tokenizer (text : str) : list str := word_tokenize text.

Definition _nltk_pos_tag (token_list : list str) : list (str * str) :=
  pos_tag token_list.

(** [_nltk_stopwords_removal]: [stop_words] is bound by neither [if]
    for another language, and is read once per token. *)
Definition _nltk_stopwords_removal (token_list : list str) (lang : str)
  : result (list str) :=
  let stop_words : option (list str) := None in
  let stop_words :=
    if str_eqb lang ru then Some (stopwords_words (py "russian"))
    else stop_words in
  let stop_words :=
    if str_eqb lang en then Some (stopwords_words (py "english"))
    else stop_words in
  filterM (fun w => sw <- read_local stop_words ;;
                    ret (negb (py_in w sw)))
          token_list.

Definition nltk_keywords (data : str) (lang : str) : result (list str) :=
  let data := _clean_text data lang in
  let tokens := _nltk_tokenizer data in
  let pos_tagged_tokens := _nltk_pos_tag tokens in
  let keywords := _filter_token_tag pos_tagged_tokens nltk_filter_tag_list in
  keywords <- _nltk_stopwords_removal keywords lang ;;
  let keywords := _unique_tokens keywords in
  ret keywords.

Definition _spacy_tokenizer (text : str) (nlp : Language) : list Token :=
  nlp_call nlp text.

Definition _spacy_pos_tag (token_list : list Token) : list (Token * str) :=
  map (fun tok => (tok, tag_ tok)) token_list.

Definition _spacy_stopwords_removal (token_list : list str) (nlp : Language)
  : list str :=
  let stop_words := Defaults_stop_words nlp in
  filter (fun w => negb (py_in w stop_words)) token_list.

(** [spacy_keywords]: [nlp] is bound by neither [if] for another
    language, and is read when the tokenizer is called. *)
Definition spacy_keywords (data : str) (lang : str) : result (list str) :=
  let nlp : option Language := None in
  let nlp :=
    if str_eqb lang ru then Some (spacy_load (py "ru_core_news_sm"))
    else nlp in
  let nlp :=
    if str_eqb lang en then Some (spacy_load (py "en_core_web_sm"))
    else nlp in
  let data := _clean_text data lang in
  nlp <- read_local nlp ;;
  let tokens := _spacy_tokenizer data nlp in
  let pos_tagged_tokens := _spacy_pos_tag tokens in
  let keywords := _filter_token_tag pos_tagged_tokens spacy_filter_tag_list in
  let keywords := _spacy_stopwords_removal keywords nlp in
  let keywords := _unique_tokens keywords in
  ret keywords.

End Pipelines.

End DataPreprocessor.

(** ** Numbers *)

(** [a / b] on Python integers. *)
Definition py_truediv (a b : Z) : result Q :=
  if Z.eqb b 0 then Raise ZeroDivisionError
  else Ok (Qmake a (Z.to_pos b)).

(** Nearest integer, ties to the even one. *)
Definition round_half_even (x : Q) : Z :=
  let d := Z.pos (Qden x) in
  let f := Z.div (Qnum x) d in
  let r := Z.modulo (Qnum x) d in
  match Z.compare (2 * r) d with
  | Lt => f
  | Gt => f + 1
  | Eq => if Z.even f then f else f + 1
  end%Z.

(** [round(x, ndigits)]. *)
Definition py_round (x : Q) (ndigits : nat) : Q :=
  let scale := Z.to_pos (10 ^ Z.of_nat ndigits) in
  Qred (Qmake (round_half_even (Qmult x (Qmake (Z.pos scale) 1))) scale).

(** [l[i]]. *)
Definition py_index {A} (l : list A) (i : nat) : result A :=
  match nth_error l i with
  | Some a => Ok a
  | None => Raise IndexError
  end.

(** ** scikit-learn, as [matchSimilarity] uses it *)

Module sklearn.

(** Order on strings by code points, for the sorted vocabulary. *)
Fixpoint str_ltb (a b : str) : bool :=
  match a, b with
  | [], [] => false
  | [], _ :: _ => true
  | _ :: _, [] => false
  | x :: a', y :: b' =>
      if N.ltb x y then true
      else if N.eqb x y then str_ltb a' b' else false
  end.

(** Insertion of a term into a sorted vocabulary without duplicates. *)
Fixpoint vocab_insert (t : str) (v : list str) : list str :=
  match v with
  | [] => [t]
  | u :: v' =>
      if str_eqb t u then v
      else if str_ltb t u then t :: v
      else u :: vocab_insert t v'
  end.

Definition count_term (t : str) (tokens : list str) : Z :=
  Z.of_nat (List.length (filter (str_eqb t) tokens)).

Section Vectorizer.
Context `{Sklearn}.

(** [CountVectorizer().fit_transform(raw_documents)]: the vocabulary is
    the sorted set of the terms of all documents, an empty vocabulary is
    an error, and row [i] counts the terms of document [i]. *)
Definition fit_transform (raw_documents : list str)
  : result (list (list Z)) :=
  let docs := map analyzer raw_documents in
  let vocabulary := fold_right vocab_insert [] (List.concat docs) in
  match vocabulary with
  | [] => Raise ValueError
  | _ :: _ =>
      ret (map (fun doc => map (fun t => count_term t doc) vocabulary) docs)
  end.

(** L2 normalisation of a row; a row whose squared norm is zero is left
    as it is. *)
Definition normalize_row (row : list Z) : list Q :=
  let sum_ := fold_left (fun s x => s + x * x)%Z row 0%Z in
  if Z.eqb sum_ 0 then map inject_Z row
  else let norm := np_sqrt (inject_Z sum_) in
       map (fun x => Qdiv (inject_Z x) norm) row.

Definition dot (a b : list Q) : Q :=
  fold_left (fun s p => Qplus s (Qmult (fst p) (snd p))) (combine a b) 0%Q.

(** [cosine_similarity(X)]: products of the normalised rows. *)
Definition cosine_similarity (X : list (list Z)) : list (list Q) :=
  let Xn := map normalize_row X in
  map (fun a => map (fun b => dot a b) Xn) Xn.

End Vectorizer.

End sklearn.

(** ** comparator.py *)

Module DataComparator.

(** The attributes set by [__init__] that the two methods read: the two
    loaded texts and the language. *)
Record t := {
  resume_data : str;
  vacancy_data : str;
  lang : str
}.

Section Methods.
Context `{Builtins} `{NLTK} `{Sklearn}.

Definition matchKeywords (self : t) : result Q :=
  keywords_resume <-
    DataPreprocessor.nltk_keywords (resume_data self) (lang self) ;;
  keywords_vacancy <-
    DataPreprocessor.nltk_keywords (vacancy_data self) (lang self) ;;
  let vacancy_keywords_in_resume_list :=
    filter (fun w => py_in w keywords_resume) keywords_vacancy in
  let vacancy_keywords_in_resume_count :=
    Z.of_nat (List.length vacancy_keywords_in_resume_list) in
  let vacancy_keywords_count := Z.of_nat (List.length keywords_vacancy) in
  q <- py_truediv vacancy_keywords_in_resume_count vacancy_keywords_count ;;
  let matchPercentage := Qmult q 100 in
  let matchPercentage := py_round matchPercentage 2 in
  ret matchPercentage.

Definition matchSimilarity (self : t) : result Q :=
  let data := [resume_data self; vacancy_data self] in
  count_matrix <- sklearn.fit_transform data ;;
  row <- py_index (sklearn.cosine_similarity count_matrix) 0 ;;
  c <- py_index row 1 ;;
  let matchPercentage := Qmult c 100 in
  let matchPercentage := py_round matchPercentage 2 in
  ret matchPercentage.

End Methods.

End DataComparator.

(** ** Small implementations of the collaborators

    Stand-ins on which the program can be run: folding of the ASCII and
    basic Cyrillic capitals, a whitespace tokenizer, a tagger that looks
    words up in a short lexicon, excerpts of the stop-word lists, and an
    analyzer that keeps the runs of two or more word characters. *)

Module Fixture.

Definition lower_char (c : char) : char :=
  if (between 65%N 90%N c || between 1040%N 1071%N c)%bool
  then (c + 32)%N else c.

Definition fx_lower (s : str) : str := map lower_char s.

(** Maximal runs of the characters satisfying [keep]; [cur] is the run
    being read, reversed. *)
Fixpoint runs (keep : char -> bool) (cur : str) (s : str) : list str :=
  match s with
  | [] => match cur with [] => [] | _ :: _ => [rev cur] end
  | c :: rest =>
      if keep c then runs keep (c :: cur) rest
      else match cur with
           | [] => runs keep [] rest
           | _ :: _ => rev cur :: runs keep [] rest
           end
  end.

Definition split_ws (s : str) : list str :=
  runs (fun c => negb (is_space c)) [] s.

Definition lexicon : list (str * str) :=
  [ (py "Such", py "JJ"); (py "such", py "JJ"); (py "Own", py "JJ");
    (py "the", py "DT"); (py "The", py "DT"); (py "a", py "DT");
    (py "with", py "IN"); (py "for", py "IN"); (py "and", py "CC");
    (py "Looking", py "VBG"); (py "Python", py "NNP");
    (py "Docker", py "NNP"); (py "SQL", py "NNP");
    (py "developer", py "NN"); (py "experience", py "NN");
    (py "skills", py "NNS"); (py "remote", py "JJ");
    (py "work", py "VBP"); (py "works", py "VBZ") ].

Fixpoint lookup_tag (w : str) (lex : list (str * str)) : str :=
  match lex with
  | [] => if forallb is_digit w then py "CD" else py "NN"
  | (u, tag) :: lex' => if str_eqb w u then tag else lookup_tag w lex'
  end.

Definition fx_pos_tag (tokens : list str) : list (str * str) :=
  map (fun w => (w, lookup_tag w lexicon)) tokens.

Definition english_stop_words : list str :=
  map py [ "i"; "me"; "my"; "we"; "our"; "you"; "the"; "a"; "an"; "and";
           "or"; "for"; "with"; "of"; "to"; "in"; "own"; "same"; "such";
           "other"; "few"; "more"; "most"; "not" ]%string.

(** и, в, не, на, с, что *)
Definition russian_stop_words : list str :=
  [ [1080]; [1074]; [1085; 1077]; [1085; 1072]; [1089];
    [1095; 1090; 1086] ]%N.

Definition fx_stopwords_words (fileid : str) : list str :=
  if str_eqb fileid (py "russian") then russian_stop_words
  else if str_eqb fileid (py "english") then english_stop_words
  else [].

Definition is_word_char (c : char) : bool :=
  (is_latin c || is_digit c || is_cyrillic c || N.eqb c 95%N)%bool.

Definition fx_analyzer (doc : str) : list str :=
  filter (fun w => Nat.leb 2 (List.length w))
         (runs is_word_char [] (fx_lower doc)).

(** Square root to six decimal places. *)
Definition fx_sqrt (q : Q) : Q :=
  Qmake (Z.sqrt (Qnum q * 10 ^ 12 / Z.pos (Qden q))%Z) (10 ^ 6)%positive.

Definition builtins : Builtins := {| lower := fx_lower |}.

Definition nltk : NLTK :=
  {| word_tokenize := split_ws;
     pos_tag := fx_pos_tag;
     stopwords_words := fx_stopwords_words |}.

Definition spacy : SpaCy :=
  {| Language := str;
     spacy_load := fun name => name;
     nlp_call := fun _ doc =>
       map (fun w => {| text := w; tag_ := lookup_tag w lexicon |})
           (split_ws doc);
     Defaults_stop_words := fun name =>
       if str_eqb name (py "ru_core_news_sm") then russian_stop_words
       else english_stop_words |}.

Definition scikit : Sklearn :=
  {| analyzer := fx_analyzer; np_sqrt := fx_sqrt |}.

Definition nltk_keywords := @DataPreprocessor.nltk_keywords builtins nltk.
Definition spacy_keywords := @DataPreprocessor.spacy_keywords builtins spacy.
Definition matchKeywords := @DataComparator.matchKeywords builtins nltk.
Definition matchSimilarity := @DataComparator.matchSimilarity scikit.

End Fixture.

(** * Notions used by the statements *)

(** The characters that each pattern of [_clean_text] keeps. *)
Definition keep_en (c : char) : bool :=
  (is_latin c || is_digit c || is_space c || N.eqb c slash)%bool.
Definition keep_ru (c : char) : bool :=
  (is_cyrillic c || is_digit c || is_space c || N.eqb c slash)%bool.

(** The first occurrences of a stream, in the words of the data model: an
    element is kept exactly when it does not occur in the part of the
    stream read before it ([seen]). *)
Fixpoint first_occurrences_from (seen : list str) (stream : list str)
  : list str :=
  match stream with
  | [] => []
  | x :: rest =>
      (if py_in x seen then [] else [x])
        ++ first_occurrences_from (seen ++ [x]) rest
  end.

Definition first_occurrences (stream : list str) : list str :=
  first_occurrences_from [] stream.

Section Stages.
Context `{Builtins} `{NLTK}.

(** The stop-word list that [_nltk_stopwords_removal] binds for a
    supported language. *)
Definition nltk_stop_words (lang : str) : list str :=
  if str_eqb lang en then stopwords_words (py "english")
  else stopwords_words (py "russian").

(** The tagged token stream of the NLTK pipeline. *)
Definition nltk_tagged_tokens (data lang : str) : list (str * str) :=
  DataPreprocessor._nltk_pos_tag
    (DataPreprocessor._nltk_tokenizer
       (DataPreprocessor._clean_text data lang)).

(** The tokens that pass the tag filter. *)
Definition nltk_candidates (data lang : str) : list str :=
  DataPreprocessor._filter_token_tag (nltk_tagged_tokens data lang)
    DataPreprocessor.nltk_filter_tag_list.

(** The tokens that pass the tag filter and the stop-word removal, in
    stream order: the input of [_unique_tokens]. *)
Definition nltk_surviving_tokens (data lang : str) : list str :=
  filter (fun w => negb (py_in w (nltk_stop_words lang)))
         (nltk_candidates data lang).

End Stages.

Section SpacyStages.
Context `{SpaCy}.

(** The model that [spacy_keywords] loads for a supported language. *)
Definition spacy_model (lang : str) : Language :=
  if str_eqb lang en then spacy_load (py "en_core_web_sm")
  else spacy_load (py "ru_core_news_sm").

(** The token stream of the spaCy pipeline. *)
Definition spacy_tokens (data lang : str) : list Token :=
  DataPreprocessor._spacy_tokenizer
    (DataPreprocessor._clean_text data lang) (spacy_model lang).

(** The tokens that pass the tag filter. *)
Definition spacy_candidates (data lang : str) : list str :=
  DataPreprocessor._filter_token_tag
    (DataPreprocessor._spacy_pos_tag (spacy_tokens data lang))
    DataPreprocessor.spacy_filter_tag_list.

End SpacyStages.

Section SimilarityStages.
Context `{Sklearn}.

(** The vocabulary that [fit_transform] builds from the two texts. *)
Definition joint_vocabulary (resume vacancy : str) : list str :=
  fold_right sklearn.vocab_insert [] (analyzer resume ++ analyzer vacancy).

(** The count row of a text over a vocabulary. *)
Definition count_vector (vocabulary : list str) (doc : str) : list Z :=
  map (fun t => sklearn.count_term t (analyzer doc)) vocabulary.

End SimilarityStages.

(** The squared L2 norm of a count row, as the row normalisation sums
    it. *)
Definition squared_norm (row : list Z) : Z :=
  fold_left (fun s x => s + x * x)%Z row 0%Z.


(** A second stand-in for spaCy, whose tagger marks every word that
    starts with a capital Latin letter as a proper noun. *)
Module CapitalsFixture.

Definition tag_of (w : str) : str :=
  match w with
  | c :: _ => if between 65%N 90%N c then py "NNP" else py "NN"
  | [] => py "NN"
  end.

Definition spacy : SpaCy :=
  {| Language := str;
     spacy_load := fun name => name;
     nlp_call := fun _ doc =>
       map (fun w => {| text := w; tag_ := tag_of w |})
           (Fixture.split_ws doc);
     Defaults_stop_words := fun _ => Fixture.english_stop_words |}.

End CapitalsFixture.

(** * Properties *)

Unset Implicit Arguments.
Import DataPreprocessor.

(** ** Normalisation ([_clean_text]) *)

Lemma clean_text_en (text : str) :
  _clean_text text en = replace_char slash space (filter keep_en text).
Proof. reflexivity. Qed.

Lemma clean_text_ru (text : str) :
  _clean_text text ru = replace_char slash space (filter keep_ru text).
Proof. reflexivity. Qed.

Lemma supported_false (lang : str) :
  supported lang = false -> str_eqb lang ru = false /\ str_eqb lang en = false.
Proof.
  unfold supported. intros Hs. apply orb_false_iff in Hs. exact Hs.
Qed.

Lemma supported_true (lang : str) :
  supported lang = true -> lang = ru \/ lang = en.
Proof.
  unfold supported, str_eqb. intros Hs. apply orb_true_iff in Hs.
  destruct Hs as [Hs | Hs]; [left | right];
    destruct (str_eq_dec lang _) as [E | E]; try exact E; discriminate.
Qed.

Lemma clean_text_other (text lang : str) :
  supported lang = false -> _clean_text text lang = replace_char slash space text.
Proof.
  intros Hs. destruct (supported_false lang Hs) as [Hr He].
  unfold _clean_text. rewrite Hr, He. reflexivity.
Qed.

Lemma is_space_space : is_space space = true.
Proof. reflexivity. Qed.

(** What survives the filter and the replacement is a letter of the
    language, a digit or white space. *)
Lemma replace_filter_class (letter : char -> bool) (text : str) (c : char) :
  In c (replace_char slash space
          (filter (fun c => letter c || is_digit c || is_space c
                            || N.eqb c slash)%bool text)) ->
  (letter c || is_digit c || is_space c)%bool = true.
Proof.
  unfold replace_char. intros Hin. apply in_map_iff in Hin.
  destruct Hin as [c0 [Hc Hin]]. apply filter_In in Hin.
  destruct Hin as [_ Hkeep].
  destruct (N.eqb c0 slash) eqn:Hs.
  - subst c. rewrite is_space_space. apply orb_true_r.
  - subst c. rewrite orb_false_r in Hkeep. exact Hkeep.
Qed.

Lemma replace_char_no_old (old new : char) (text : str) :
  old <> new -> ~ In old (replace_char old new text).
Proof.
  intros Hne Hin. unfold replace_char in Hin. apply in_map_iff in Hin.
  destruct Hin as [c [Hc _]].
  destruct (N.eqb c old) eqn:E.
  - congruence.
  - apply N.eqb_neq in E. congruence.
Qed.

Lemma replace_char_absent (old new : char) (text : str) :
  ~ In old text -> replace_char old new text = text.
Proof.
  unfold replace_char. induction text as [| c text IH]; intros Hn.
  - reflexivity.
  - simpl. destruct (N.eqb c old) eqn:E.
    + apply N.eqb_eq in E. exfalso. apply Hn. left. exact E.
    + f_equal. apply IH. intros Hin. apply Hn. right. exact Hin.
Qed.

(** C7. Normalisation with [lang = "en"] deletes every character that is
    not a Latin letter, a digit, white space or [/], and turns every [/]
    into a space, so that the output consists of Latin letters, digits and
    white space only (no [/], no [,], no [!]); with [lang = "ru"] the same
    holds with the Cyrillic letters [а-яА-Я] in place of the Latin ones.
    The text of the specification's example is normalised as expected. *)
Theorem clean_text_keeps_only_allow_list (text : str) :
  (_clean_text text en = replace_char slash space (filter keep_en text)
   /\ (forall c, In c (_clean_text text en) ->
         (is_latin c || is_digit c || is_space c)%bool = true)
   /\ ~ In slash (_clean_text text en)
   /\ ~ In 44%N (_clean_text text en)
   /\ ~ In 33%N (_clean_text text en))
  /\
  (_clean_text text ru = replace_char slash space (filter keep_ru text)
   /\ (forall c, In c (_clean_text text ru) ->
         (is_cyrillic c || is_digit c || is_space c)%bool = true)
   /\ ~ In slash (_clean_text text ru)
   /\ ~ In 44%N (_clean_text text ru)
   /\ ~ In 33%N (_clean_text text ru))
  /\ _clean_text (py "Hello, world! 123") en = py "Hello world 123".
Proof.
  assert (Hen : forall c, In c (_clean_text text en) ->
            (is_latin c || is_digit c || is_space c)%bool = true).
  { intros c. rewrite clean_text_en. apply replace_filter_class. }
  assert (Hru : forall c, In c (_clean_text text ru) ->
            (is_cyrillic c || is_digit c || is_space c)%bool = true).
  { intros c. rewrite clean_text_ru. apply replace_filter_class. }
  repeat split; try reflexivity; try assumption;
    intros Hin;
    first [ apply Hen in Hin | apply Hru in Hin ]; discriminate Hin.
Qed.

(** C9, as the code has it. For a language other than ["ru"] and ["en"],
    normalisation deletes no character; it still replaces every [/] by a
    space, so the text is unchanged exactly when it holds no [/]. *)
Theorem clean_text_other_lang_only_replaces_slash (text lang : str) :
  supported lang = false ->
  _clean_text text lang = replace_char slash space text
  /\ List.length (_clean_text text lang) = List.length text
  /\ (~ In slash text -> _clean_text text lang = text)
  /\ (In slash text -> _clean_text text lang <> text).
Proof.
  intros Hs. rewrite (clean_text_other text lang Hs).
  split; [reflexivity |]. split; [apply length_map |]. split.
  - apply replace_char_absent.
  - intros Hin Heq.
    apply (@replace_char_no_old slash space text); [discriminate |].
    rewrite Heq. exact Hin.
Qed.

Lemma clean_text_other_lang_only_replaces_slash_witness :
  _clean_text (py "CI/CD, Go") (py "de")
    = replace_char slash space (py "CI/CD, Go")
  /\ List.length (_clean_text (py "CI/CD, Go") (py "de"))
     = List.length (py "CI/CD, Go")
  /\ (~ In slash (py "CI/CD, Go") ->
      _clean_text (py "CI/CD, Go") (py "de") = py "CI/CD, Go")
  /\ (In slash (py "CI/CD, Go") ->
      _clean_text (py "CI/CD, Go") (py "de") <> py "CI/CD, Go").
Proof.
  apply (@clean_text_other_lang_only_replaces_slash
           (py "CI/CD, Go") (py "de")).
  reflexivity.
Defined.

(** C9, as stated, fails: with the unsupported language ["de"] the text
    ["a/b"] is normalised to ["a b"]. *)
Lemma clean_text_other_lang_not_identity :
  supported (py "de") = false
  /\ _clean_text (py "a/b") (py "de") = py "a b"
  /\ _clean_text (py "a/b") (py "de") <> py "a/b".
Proof.
  split; [reflexivity |]. split; [reflexivity |]. discriminate.
Qed.

(** ** Deduplication ([_unique_tokens]) *)

Lemma py_in_true (x : str) (l : list str) : py_in x l = true <-> In x l.
Proof.
  unfold py_in. destruct (in_dec str_eq_dec x l); split; intros;
    try reflexivity; try assumption; try discriminate; contradiction.
Qed.

Lemma py_in_false (x : str) (l : list str) : py_in x l = false <-> ~ In x l.
Proof.
  unfold py_in. destruct (in_dec str_eq_dec x l); split; intros;
    try reflexivity; try assumption; try discriminate; contradiction.
Qed.

Lemma py_in_ext (x : str) (l l' : list str) :
  (forall y, In y l <-> In y l') -> py_in x l = py_in x l'.
Proof.
  intros Hext. destruct (py_in x l') eqn:E.
  - apply py_in_true. apply Hext. apply py_in_true. exact E.
  - apply py_in_false. intros Hin. apply Hext in Hin.
    apply py_in_false in E. contradiction.
Qed.

Lemma first_occurrences_from_In (seen stream : list str) (y : str) :
  In y (first_occurrences_from seen stream) <-> In y stream /\ ~ In y seen.
Proof.
  revert seen. induction stream as [| x rest IH]; intros seen; simpl.
  - tauto.
  - rewrite in_app_iff, IH, in_app_iff. simpl.
    destruct (py_in x seen) eqn:E.
    + apply py_in_true in E. simpl.
      destruct (str_eq_dec x y) as [-> | Hne]; tauto.
    + apply py_in_false in E. simpl.
      destruct (str_eq_dec x y) as [-> | Hne]; tauto.
Qed.

Lemma first_occurrences_from_NoDup (seen stream : list str) :
  NoDup (first_occurrences_from seen stream).
Proof.
  revert seen. induction stream as [| x rest IH]; intros seen; simpl.
  - constructor.
  - destruct (py_in x seen); simpl.
    + apply IH.
    + constructor; [| apply IH].
      rewrite first_occurrences_from_In, in_app_iff. simpl. tauto.
Qed.

Section Unique.
Context `{Builtins}.

(** The loop of [_unique_tokens] started from any accumulator that holds
    the same elements as the part of the stream already read. *)
Lemma unique_loop (token_list acc seen : list str) :
  (forall y, In y acc <-> In y seen) ->
  fold_left unique_step token_list acc
  = acc ++ first_occurrences_from seen (map lower token_list).
Proof.
  revert acc seen. induction token_list as [| x rest IH];
    intros acc seen Hsame; simpl.
  - symmetry. apply app_nil_r.
  - unfold unique_step at 2. rewrite (py_in_ext (lower x) acc seen Hsame).
    destruct (py_in (lower x) seen) eqn:E; simpl.
    + apply IH. intros y. rewrite in_app_iff, Hsame. simpl.
      apply py_in_true in E.
      destruct (str_eq_dec (lower x) y) as [<- | Hne]; tauto.
    + rewrite (IH (acc ++ [lower x]) (seen ++ [lower x])).
      * rewrite <- app_assoc. reflexivity.
      * intros y. rewrite !in_app_iff, Hsame. tauto.
Qed.

Lemma unique_tokens_first_occurrences (token_list : list str) :
  _unique_tokens token_list = first_occurrences (map lower token_list).
Proof.
  unfold _unique_tokens, first_occurrences.
  rewrite (unique_loop token_list [] []); [reflexivity | tauto].
Qed.

Lemma unique_tokens_In (token_list : list str) (k : str) :
  In k (_unique_tokens token_list)
  <-> exists x, In x token_list /\ k = lower x.
Proof.
  rewrite unique_tokens_first_occurrences. unfold first_occurrences.
  rewrite first_occurrences_from_In, in_map_iff. simpl.
  split.
  - intros [[x [Hx Hin]] _]. exists x. auto.
  - intros [x [Hin Hx]]. split; [exists x; auto | tauto].
Qed.

Lemma unique_tokens_NoDup (token_list : list str) :
  NoDup (_unique_tokens token_list).
Proof.
  rewrite unique_tokens_first_occurrences.
  apply first_occurrences_from_NoDup.
Qed.

Lemma unique_tokens_lowercase (token_list : list str) :
  (forall x, lower (lower x) = lower x) ->
  Forall (fun k => lower k = k) (_unique_tokens token_list).
Proof.
  intros Hidem. apply Forall_forall. intros k Hin.
  apply unique_tokens_In in Hin. destruct Hin as [x [_ ->]]. apply Hidem.
Qed.

End Unique.

(** ** The keyword pipelines *)

Lemma filterM_pure {A} (p : A -> bool) (l : list A) :
  filterM (fun w => ret (p w)) l = Ok (filter p l).
Proof.
  induction l as [| w rest IH]; simpl.
  - reflexivity.
  - rewrite IH. simpl. destruct (p w); reflexivity.
Qed.

Lemma filterM_unbound {A B} (f : A -> B -> bool) (l : list A) :
  filterM (fun w => sw <- read_local (@None B) ;; ret (f w sw)) l
  = match l with [] => Ok [] | _ :: _ => Raise NameError end.
Proof. destruct l; reflexivity. Qed.

Lemma filter_token_tag_In {T} `{PyStr T}
    (tagged : list (T * str)) (allow : list str) (x : str) :
  In x (_filter_token_tag tagged allow)
  <-> exists tok tag, In (tok, tag) tagged /\ In tag allow /\ x = py_str tok.
Proof.
  unfold _filter_token_tag. rewrite in_map_iff. split.
  - intros [tok [Hx Hin]]. apply in_map_iff in Hin.
    destruct Hin as [[tok' tag] [Hfst Hin]]. simpl in Hfst. subst tok'.
    apply filter_In in Hin. destruct Hin as [Hin Htag]. simpl in Htag.
    apply py_in_true in Htag. exists tok, tag. auto.
  - intros [tok [tag [Hin [Htag Hx]]]]. exists tok. split; [auto |].
    apply in_map_iff. exists (tok, tag). split; [reflexivity |].
    apply filter_In. split; [exact Hin |]. simpl. apply py_in_true.
    exact Htag.
Qed.

Section Nltk.
Context `{Builtins} `{NLTK}.

Lemma nltk_stopwords_removal_supported (token_list : list str) (lang : str) :
  supported lang = true ->
  _nltk_stopwords_removal token_list lang
  = Ok (filter (fun w => negb (py_in w (nltk_stop_words lang))) token_list).
Proof.
  intros Hs. unfold _nltk_stopwords_removal, nltk_stop_words.
  destruct (supported_true lang Hs) as [-> | ->]; simpl;
    apply (filterM_pure (fun w => negb (py_in w _))).
Qed.

Lemma nltk_stopwords_removal_other (token_list : list str) (lang : str) :
  supported lang = false ->
  _nltk_stopwords_removal token_list lang
  = match token_list with [] => Ok [] | _ :: _ => Raise NameError end.
Proof.
  intros Hs. destruct (supported_false lang Hs) as [Hr He].
  unfold _nltk_stopwords_removal. rewrite Hr, He.
  apply (filterM_unbound (fun w sw => negb (py_in w sw))).
Qed.

Lemma nltk_keywords_supported (data lang : str) :
  supported lang = true ->
  nltk_keywords data lang
  = Ok (_unique_tokens (nltk_surviving_tokens data lang)).
Proof.
  intros Hs. unfold nltk_keywords, nltk_surviving_tokens, nltk_candidates.
  rewrite (nltk_stopwords_removal_supported _ lang Hs). reflexivity.
Qed.

End Nltk.

Section Spacy.
Context `{Builtins} `{SpaCy}.

Lemma spacy_keywords_supported (data lang : str) :
  supported lang = true ->
  spacy_keywords data lang
  = Ok (_unique_tokens
          (_spacy_stopwords_removal (spacy_candidates data lang)
             (spacy_model lang))).
Proof.
  intros Hs. unfold spacy_keywords, spacy_candidates, spacy_tokens,
    spacy_model.
  destruct (supported_true lang Hs) as [-> | ->]; reflexivity.
Qed.

Lemma spacy_candidates_In (data lang x : str) :
  In x (spacy_candidates data lang)
  <-> exists tok, In tok (spacy_tokens data lang)
                  /\ tag_ tok = py "NNP" /\ x = text tok.
Proof.
  unfold spacy_candidates. rewrite filter_token_tag_In. split.
  - intros [tok [tag [Hin [Htag Hx]]]].
    unfold _spacy_pos_tag in Hin. apply in_map_iff in Hin.
    destruct Hin as [tok' [Heq Hin]]. inversion Heq; subst.
    exists tok. split; [exact Hin |]. split; [| reflexivity].
    destruct Htag as [Htag | []]. symmetry. exact Htag.
  - intros [tok [Hin [Htag Hx]]]. exists tok, (tag_ tok).
    split; [| split].
    + unfold _spacy_pos_tag. apply in_map_iff. exists tok. auto.
    + left. symmetry. exact Htag.
    + exact Hx.
Qed.

End Spacy.

(** Facts on the small implementations. *)
Lemma fx_lower_char_idem (c : char) :
  Fixture.lower_char (Fixture.lower_char c) = Fixture.lower_char c.
Proof.
  unfold Fixture.lower_char, between.
  repeat match goal with
         | |- context [N.leb ?a ?b] =>
             let E := fresh "E" in
             destruct (N.leb a b) eqn:E;
             [apply N.leb_le in E | apply N.leb_gt in E]
         end; simpl in *; lia.
Qed.

Lemma fx_lower_idem (x : str) :
  Fixture.fx_lower (Fixture.fx_lower x) = Fixture.fx_lower x.
Proof.
  unfold Fixture.fx_lower. rewrite map_map. apply map_ext.
  intros c. apply fx_lower_char_idem.
Qed.

(** C4. For a supported language the NLTK pipeline returns a keyword list
    without duplicates, also up to case; every entry is lower-case; and
    the entries are the first occurrences, in stream order, of the
    lower-cased tokens that pass the tag filter and the stop-word removal.
    [str.lower] is taken idempotent. *)
Theorem nltk_keywords_unique_lowercase_ordered `{Builtins} `{NLTK}
    (data lang : str) :
  supported lang = true ->
  (forall x, lower (lower x) = lower x) ->
  exists keywords,
    nltk_keywords data lang = Ok keywords
    /\ NoDup keywords
    /\ NoDup (map lower keywords)
    /\ Forall (fun k => lower k = k) keywords
    /\ keywords
       = first_occurrences (map lower (nltk_surviving_tokens data lang)).
Proof.
  intros Hs Hidem. exists (_unique_tokens (nltk_surviving_tokens data lang)).
  pose proof (unique_tokens_lowercase (nltk_surviving_tokens data lang) Hidem)
    as Hlow.
  split; [apply nltk_keywords_supported; exact Hs |].
  split; [apply unique_tokens_NoDup |].
  split; [| split; [exact Hlow | apply unique_tokens_first_occurrences]].
  replace (map lower (_unique_tokens (nltk_surviving_tokens data lang)))
    with (_unique_tokens (nltk_surviving_tokens data lang)).
  - apply unique_tokens_NoDup.
  - rewrite <- (map_id (_unique_tokens _)) at 1. apply map_ext_in.
    intros k Hin. rewrite Forall_forall in Hlow. symmetry. apply Hlow.
    exact Hin.
Qed.

Lemma nltk_keywords_unique_lowercase_ordered_witness :
  exists keywords,
    Fixture.nltk_keywords (py "Python, SQL and python; Docker/SQL") en
    = Ok keywords
    /\ NoDup keywords
    /\ NoDup (map Fixture.fx_lower keywords)
    /\ Forall (fun k => Fixture.fx_lower k = k) keywords
    /\ keywords
       = first_occurrences
           (map Fixture.fx_lower
              (@nltk_surviving_tokens Fixture.nltk
                 (py "Python, SQL and python; Docker/SQL") en)).
Proof.
  apply (@nltk_keywords_unique_lowercase_ordered Fixture.builtins
           Fixture.nltk (py "Python, SQL and python; Docker/SQL") en).
  - reflexivity.
  - exact fx_lower_idem.
Defined.

(** C6. For a supported language, keyword extraction applied to the empty
    string returns the empty keyword list and raises nothing, the
    tokenizer and the tagger returning nothing on nothing. *)
Theorem nltk_keywords_empty_text `{Builtins} `{NLTK} (lang : str) :
  supported lang = true ->
  word_tokenize (py "") = [] ->
  pos_tag [] = [] ->
  nltk_keywords (py "") lang = Ok [].
Proof.
  intros Hs Htok Htag. rewrite (nltk_keywords_supported _ lang Hs).
  unfold nltk_surviving_tokens, nltk_candidates, nltk_tagged_tokens,
    _nltk_pos_tag, _nltk_tokenizer.
  replace (_clean_text (py "") lang) with (py "").
  - rewrite Htok, Htag. reflexivity.
  - destruct (supported_true lang Hs) as [-> | ->]; reflexivity.
Qed.

Lemma nltk_keywords_empty_text_witness :
  Fixture.nltk_keywords (py "") ru = Ok []
  /\ Fixture.nltk_keywords (py "") en = Ok [].
Proof.
  split.
  - apply (@nltk_keywords_empty_text Fixture.builtins Fixture.nltk ru);
      reflexivity.
  - apply (@nltk_keywords_empty_text Fixture.builtins Fixture.nltk en);
      reflexivity.
Defined.

(** C8. The NLTK pipeline filters with the list NNP, NN, VBP, JJ and the
    spaCy pipeline with the list NNP alone; the two lists differ.  In
    either pipeline the tokens that pass the filter are exactly the
    tokens tagged with a tag of the pipeline's list, and every keyword
    returned is the lower-cased text of such a token: a token tagged
    otherwise contributes nothing to the output. *)
Theorem tag_filter_allow_lists `{Builtins} `{NLTK} `{SpaCy}
    (data lang : str) :
  supported lang = true ->
  nltk_filter_tag_list = [py "NNP"; py "NN"; py "VBP"; py "JJ"]
  /\ spacy_filter_tag_list = [py "NNP"]
  /\ nltk_filter_tag_list <> spacy_filter_tag_list
  /\ (forall x,
        In x (nltk_candidates data lang)
        <-> exists tok tag,
              In (tok, tag) (nltk_tagged_tokens data lang)
              /\ In tag nltk_filter_tag_list /\ x = tok)
  /\ (forall x,
        In x (spacy_candidates data lang)
        <-> exists tok,
              In tok (spacy_tokens data lang)
              /\ tag_ tok = py "NNP" /\ x = text tok)
  /\ (exists keywords,
        nltk_keywords data lang = Ok keywords
        /\ forall k, In k keywords ->
             exists tok tag,
               In (tok, tag) (nltk_tagged_tokens data lang)
               /\ In tag nltk_filter_tag_list /\ k = lower tok)
  /\ (exists keywords,
        spacy_keywords data lang = Ok keywords
        /\ forall k, In k keywords ->
             exists tok,
               In tok (spacy_tokens data lang)
               /\ tag_ tok = py "NNP" /\ k = lower (text tok)).
Proof.
  intros Hs.
  split; [reflexivity |]. split; [reflexivity |]. split; [discriminate |].
  split; [intros x; apply filter_token_tag_In |].
  split; [intros x; apply spacy_candidates_In |].
  split.
  - eexists. split; [apply nltk_keywords_supported; exact Hs |].
    intros k Hin. apply unique_tokens_In in Hin.
    destruct Hin as [x [Hin ->]].
    unfold nltk_surviving_tokens in Hin. apply filter_In in Hin.
    destruct Hin as [Hin _].
    unfold nltk_candidates in Hin. apply filter_token_tag_In in Hin.
    destruct Hin as [tok [tag [Hin [Htag ->]]]]. exists tok, tag. auto.
  - eexists. split; [apply spacy_keywords_supported; exact Hs |].
    intros k Hin. apply unique_tokens_In in Hin.
    destruct Hin as [x [Hin ->]].
    unfold _spacy_stopwords_removal in Hin. apply filter_In in Hin.
    destruct Hin as [Hin _]. apply spacy_candidates_In in Hin.
    destruct Hin as [tok [Hin [Htag ->]]]. exists tok. auto.
Qed.

Lemma tag_filter_allow_lists_witness :
  (exists keywords,
     Fixture.nltk_keywords (py "Looking for remote Python work") en
     = Ok keywords
     /\ forall k, In k keywords ->
          exists tok tag,
            In (tok, tag)
               (@nltk_tagged_tokens Fixture.nltk
                  (py "Looking for remote Python work") en)
            /\ In tag nltk_filter_tag_list /\ k = Fixture.fx_lower tok)
  /\ (exists keywords,
        Fixture.spacy_keywords (py "Looking for remote Python work") en
        = Ok keywords
        /\ forall k, In k keywords ->
             exists tok,
               In tok (@spacy_tokens Fixture.spacy
                         (py "Looking for remote Python work") en)
               /\ tag_ tok = py "NNP" /\ k = Fixture.fx_lower (text tok)).
Proof.
  assert (Hs : supported en = true) by reflexivity.
  pose proof (@tag_filter_allow_lists Fixture.builtins Fixture.nltk
                Fixture.spacy (py "Looking for remote Python work") en Hs)
    as [_ [_ [_ [_ [_ [Hnltk Hspacy]]]]]].
  split; [exact Hnltk | exact Hspacy].
Defined.

(** C10. The NLTK pipeline removes stop words before it lower-cases, and
    compares the tokens as they are written: a token that passes the tag
    filter, is not itself in the stop-word list, and whose lower-case
    form is in the list puts a stop word into the keyword list. *)
Theorem nltk_stopword_removal_is_case_sensitive `{Builtins} `{NLTK}
    (data lang w : str) :
  supported lang = true ->
  py_in w (nltk_candidates data lang) = true ->
  py_in w (nltk_stop_words lang) = false ->
  py_in (lower w) (nltk_stop_words lang) = true ->
  exists keywords,
    nltk_keywords data lang = Ok keywords
    /\ In (lower w) keywords
    /\ In (lower w) (nltk_stop_words lang).
Proof.
  intros Hs Hcand Hnot Hstop.
  exists (_unique_tokens (nltk_surviving_tokens data lang)).
  split; [apply nltk_keywords_supported; exact Hs |].
  split; [| apply py_in_true; exact Hstop].
  apply unique_tokens_In. exists w. split; [| reflexivity].
  unfold nltk_surviving_tokens. apply filter_In.
  split; [apply py_in_true; exact Hcand |]. rewrite Hnot. reflexivity.
Qed.

Lemma nltk_stopword_removal_is_case_sensitive_witness :
  exists keywords,
    Fixture.nltk_keywords (py "Such Python skills") en = Ok keywords
    /\ In (py "such") keywords
    /\ In (py "such") (Fixture.fx_stopwords_words (py "english")).
Proof.
  apply (@nltk_stopword_removal_is_case_sensitive Fixture.builtins
           Fixture.nltk (py "Such Python skills") en (py "Such"));
    reflexivity.
Defined.

(** C2, as the code has it. For a language other than ["ru"] and ["en"]
    the language is not validated and no language error is raised:
    normalisation keeps every character and only replaces [/] by a space,
    the text is tokenised and tagged as it is, and the extraction returns
    the empty keyword list whenever no token passes the tag filter. *)
Theorem nltk_keywords_unsupported_language `{Builtins} `{NLTK}
    (data lang : str) :
  supported lang = false ->
  _clean_text data lang = replace_char slash space data
  /\ nltk_tagged_tokens data lang
     = pos_tag (word_tokenize (replace_char slash space data))
  /\ (nltk_candidates data lang = [] -> nltk_keywords data lang = Ok []).
Proof.
  intros Hs. split; [apply clean_text_other; exact Hs |]. split.
  - unfold nltk_tagged_tokens, _nltk_pos_tag, _nltk_tokenizer.
    rewrite (clean_text_other data lang Hs). reflexivity.
  - intros Hnone. unfold nltk_keywords.
    change (_filter_token_tag _ nltk_filter_tag_list)
      with (nltk_candidates data lang).
    rewrite (nltk_stopwords_removal_other _ lang Hs), Hnone. reflexivity.
Qed.

Lemma nltk_keywords_unsupported_language_witness :
  _clean_text (py "Looking for CI/CD") (py "de")
    = replace_char slash space (py "Looking for CI/CD")
  /\ @nltk_tagged_tokens Fixture.nltk (py "Looking for CI/CD") (py "de")
     = Fixture.fx_pos_tag
         (Fixture.split_ws (replace_char slash space (py "Looking for CI/CD")))
  /\ Fixture.nltk_keywords (py "Looking for") (py "de") = Ok [].
Proof.
  assert (Hs : supported (py "de") = false) by reflexivity.
  destruct (@nltk_keywords_unsupported_language Fixture.builtins
              Fixture.nltk (py "Looking for CI/CD") (py "de") Hs)
    as [Hclean [Htagged _]].
  destruct (@nltk_keywords_unsupported_language Fixture.builtins
              Fixture.nltk (py "Looking for") (py "de") Hs)
    as [_ [_ Hnone]].
  split; [exact Hclean |]. split; [exact Htagged |].
  apply Hnone. reflexivity.
Defined.

(** For a language other than ["ru"] and ["en"] and a text of which some
    token passes the tag filter, the stop-word removal reads the unbound
    [stop_words] and the extraction raises [NameError]. *)
Theorem nltk_keywords_unsupported_language_name_error `{Builtins} `{NLTK}
    (data lang : str) :
  supported lang = false ->
  nltk_candidates data lang <> [] ->
  nltk_keywords data lang = Raise NameError.
Proof.
  intros Hs Hsome. unfold nltk_keywords.
  change (_filter_token_tag _ nltk_filter_tag_list)
    with (nltk_candidates data lang).
  rewrite (nltk_stopwords_removal_other _ lang Hs).
  destruct (nltk_candidates data lang); [congruence | reflexivity].
Qed.

Lemma nltk_keywords_unsupported_language_name_error_witness :
  Fixture.nltk_keywords (py "Python developer") (py "fr") = Raise NameError.
Proof.
  apply (@nltk_keywords_unsupported_language_name_error Fixture.builtins
           Fixture.nltk (py "Python developer") (py "fr")).
  - reflexivity.
  - discriminate.
Defined.

(** For a language other than ["ru"] and ["en"] the spaCy pipeline reads
    the unbound [nlp] when it calls the tokenizer and raises [NameError],
    whatever the text. *)
Theorem spacy_keywords_unsupported_language `{Builtins} `{SpaCy}
    (data lang : str) :
  supported lang = false ->
  spacy_keywords data lang = Raise NameError.
Proof.
  intros Hs. destruct (supported_false lang Hs) as [Hr He].
  unfold spacy_keywords. rewrite Hr, He. reflexivity.
Qed.

Lemma spacy_keywords_unsupported_language_witness :
  Fixture.spacy_keywords (py "") (py "de") = Raise NameError.
Proof.
  apply (@spacy_keywords_unsupported_language Fixture.builtins
           Fixture.spacy (py "") (py "de")).
  reflexivity.
Defined.

(** C2, as stated, fails: with the unsupported language ["de"] the
    extraction from the empty text returns the empty keyword list and
    raises nothing, and the extraction from ["Such skills"] raises a
    [NameError]. *)
Lemma nltk_keywords_unsupported_language_no_error :
  supported (py "de") = false
  /\ Fixture.nltk_keywords (py "") (py "de") = Ok []
  /\ (forall e, Fixture.nltk_keywords (py "") (py "de") <> Raise e)
  /\ Fixture.nltk_keywords (py "Such skills") (py "de") = Raise NameError.
Proof.
  split; [reflexivity |]. split; [reflexivity |].
  split; [intros e; discriminate | reflexivity].
Qed.

(** ** Rounding *)

Lemma py_round2_unfold (x : Q) :
  py_round x 2
  = Qred (Qmake (round_half_even (Qmult x (Qmake 100 1))) 100).
Proof. reflexivity. Qed.

Lemma round_half_even_integer (x : Q) (m : Z) :
  Qeq x (inject_Z m) -> round_half_even x = m.
Proof.
  unfold Qeq, round_half_even. destruct x as [a d]. simpl. intros Hx.
  rewrite Z.mul_1_r in Hx. subst a.
  rewrite Z.div_mul, Z.mod_mul by discriminate. reflexivity.
Qed.

Lemma round_half_even_bounds (x : Q) (M : Z) :
  Qle 0 x -> Qle x (inject_Z M) ->
  (0 <= round_half_even x <= M)%Z.
Proof.
  unfold Qle, round_half_even. destruct x as [a d].
  cbn [Qnum Qden inject_Z]. intros H0 HM.
  pose proof (Z.div_mod a (Z.pos d) ltac:(discriminate)) as Hdm.
  pose proof (Z.mod_pos_bound a (Z.pos d) ltac:(reflexivity)) as Hr.
  assert (Hf0 : (0 <= a / Z.pos d)%Z) by (apply Z.div_pos; lia).
  assert (HfM : (a / Z.pos d <= M)%Z) by nia.
  assert (Hstep : (0 < a mod Z.pos d -> a / Z.pos d + 1 <= M)%Z) by nia.
  destruct (Z.compare_spec (2 * (a mod Z.pos d)) (Z.pos d)) as [E | E | E].
  - destruct (Z.even (a / Z.pos d)); lia.
  - lia.
  - lia.
Qed.

Lemma py_round2_integer (x : Q) (m : Z) :
  Qeq x (inject_Z m) -> py_round x 2 = Qred (inject_Z m).
Proof.
  intros Hx. rewrite py_round2_unfold.
  rewrite (round_half_even_integer (Qmult x (Qmake 100 1)) (m * 100)).
  - apply Qred_complete. unfold Qeq. simpl. lia.
  - rewrite Hx. unfold Qeq. simpl. lia.
Qed.

Lemma py_round2_bounds (x : Q) :
  Qle 0 x -> Qle x 100 -> Qle 0 (py_round x 2) /\ Qle (py_round x 2) 100.
Proof.
  intros H0 H100. rewrite py_round2_unfold.
  destruct (round_half_even_bounds (Qmult x (Qmake 100 1)) 10000)
    as [Hlo Hhi].
  - apply Qmult_le_0_compat; [exact H0 | discriminate].
  - apply Qle_trans with (Qmult 100 (Qmake 100 1)).
    + apply Qmult_le_compat_r; [exact H100 | discriminate].
    + discriminate.
  - split.
    + rewrite Qred_correct. unfold Qle. simpl. lia.
    + rewrite Qred_correct. unfold Qle. simpl. lia.
Qed.

(** ** Keyword match ([matchKeywords]) *)

Lemma filter_all {A} (p : A -> bool) (l : list A) :
  (forall x, In x l -> p x = true) -> filter p l = l.
Proof.
  induction l as [| a l IH]; intros Hall; simpl.
  - reflexivity.
  - rewrite (Hall a (or_introl eq_refl)). f_equal. apply IH.
    intros x Hin. apply Hall. right. exact Hin.
Qed.

Section Comparator.
Context `{Builtins} `{NLTK}.
Import DataComparator.

Lemma matchKeywords_supported (self : DataComparator.t) (kv : list str) :
  supported (lang self) = true ->
  nltk_keywords (vacancy_data self) (lang self) = Ok kv ->
  matchKeywords self
  = (q <- py_truediv
            (Z.of_nat
               (List.length
                  (filter
                     (fun w =>
                        py_in w
                          (_unique_tokens
                             (nltk_surviving_tokens (resume_data self)
                                (lang self))))
                     kv)))
            (Z.of_nat (List.length kv)) ;;
     ret (py_round (Qmult q 100) 2)).
Proof.
  intros Hs Hkv. unfold matchKeywords.
  rewrite (nltk_keywords_supported (resume_data self) (lang self) Hs), Hkv.
  reflexivity.
Qed.

End Comparator.

(** C1, as the code has it. For a supported language, when the vacancy
    text yields the empty keyword list, [matchKeywords] divides by zero:
    it raises [ZeroDivisionError] and returns no percentage. *)
Theorem matchKeywords_empty_vacancy_raises `{Builtins} `{NLTK}
    (self : DataComparator.t) :
  supported (DataComparator.lang self) = true ->
  nltk_keywords (DataComparator.vacancy_data self) (DataComparator.lang self)
  = Ok [] ->
  DataComparator.matchKeywords self = Raise ZeroDivisionError.
Proof.
  intros Hs Hkv. rewrite (matchKeywords_supported self [] Hs Hkv).
  reflexivity.
Qed.

Lemma matchKeywords_empty_vacancy_raises_witness :
  Fixture.matchKeywords
    {| DataComparator.resume_data := py "Python developer";
       DataComparator.vacancy_data := py "Looking for the 1234";
       DataComparator.lang := en |}
  = Raise ZeroDivisionError.
Proof.
  apply (@matchKeywords_empty_vacancy_raises Fixture.builtins Fixture.nltk);
    reflexivity.
Defined.

(** C1, as stated, fails: the vacancy text [""] yields the empty keyword
    list, and [matchKeywords] raises [ZeroDivisionError] instead of
    returning [0.0]. *)
Lemma matchKeywords_empty_vacancy_not_zero :
  Fixture.nltk_keywords (py "") en = Ok []
  /\ Fixture.matchKeywords
       {| DataComparator.resume_data := py "Python developer";
          DataComparator.vacancy_data := py "";
          DataComparator.lang := en |}
     = Raise ZeroDivisionError
  /\ Fixture.matchKeywords
       {| DataComparator.resume_data := py "Python developer";
          DataComparator.vacancy_data := py "";
          DataComparator.lang := en |}
     <> Ok 0%Q.
Proof.
  split; [reflexivity |]. split; [reflexivity | discriminate].
Qed.

(** C5, as the code has it. For a supported language and a vacancy text
    that yields at least one keyword, [matchKeywords] returns a value
    between 0 and 100, and returns exactly 100 when the resume text
    equals the vacancy text. *)
Theorem matchKeywords_range_and_self_match `{Builtins} `{NLTK}
    (self : DataComparator.t) (keywords_vacancy : list str) :
  supported (DataComparator.lang self) = true ->
  nltk_keywords (DataComparator.vacancy_data self) (DataComparator.lang self)
  = Ok keywords_vacancy ->
  keywords_vacancy <> [] ->
  exists p,
    DataComparator.matchKeywords self = Ok p
    /\ Qle 0 p /\ Qle p 100
    /\ (DataComparator.resume_data self = DataComparator.vacancy_data self ->
        p = 100%Q).
Proof.
  intros Hs Hkv Hne.
  rewrite (matchKeywords_supported self keywords_vacancy Hs Hkv).
  set (kr := _unique_tokens _).
  set (c := Z.of_nat (List.length (filter _ keywords_vacancy))).
  set (n := Z.of_nat (List.length keywords_vacancy)).
  assert (Hn : (0 < n)%Z).
  { subst n. destruct keywords_vacancy; [congruence | simpl; lia]. }
  assert (Hc : (0 <= c <= n)%Z).
  { subst c n. split; [lia |]. apply Nat2Z.inj_le. apply filter_length_le. }
  unfold py_truediv. destruct (Z.eqb_spec n 0) as [E | _]; [lia |].
  cbn [bind]. eexists. split; [reflexivity |].
  assert (Hpos : Z.pos (Z.to_pos n) = n) by (apply Z2Pos.id; exact Hn).
  split; [| split].
  - apply py_round2_bounds.
    + unfold Qle. cbn [Qnum Qden Qmult]. rewrite Pos2Z.inj_mul, Hpos. nia.
    + unfold Qle. cbn [Qnum Qden Qmult]. rewrite Pos2Z.inj_mul, Hpos. nia.
  - apply py_round2_bounds.
    + unfold Qle. cbn [Qnum Qden Qmult]. rewrite Pos2Z.inj_mul, Hpos. nia.
    + unfold Qle. cbn [Qnum Qden Qmult]. rewrite Pos2Z.inj_mul, Hpos. nia.
  - intros Hsame.
    assert (Hkr : kr = keywords_vacancy).
    { subst kr.
      pose proof (nltk_keywords_supported
                    (DataComparator.resume_data self)
                    (DataComparator.lang self) Hs) as Hr.
      rewrite Hsame, Hkv in Hr. congruence. }
    assert (Hcn : c = n).
    { subst c n. rewrite Hkr. rewrite filter_all; [reflexivity |].
      intros x Hin. apply py_in_true. exact Hin. }
    rewrite (py_round2_integer (Qmult (Qmake c (Z.to_pos n)) 100) 100).
    + reflexivity.
    + unfold Qeq. cbn [Qnum Qden Qmult inject_Z].
      rewrite Pos2Z.inj_mul, Hpos, Hcn. lia.
Qed.

Lemma matchKeywords_range_and_self_match_witness :
  exists p,
    Fixture.matchKeywords
      {| DataComparator.resume_data := py "Python developer with Docker";
         DataComparator.vacancy_data := py "Python developer with Docker";
         DataComparator.lang := en |}
    = Ok p
    /\ Qle 0 p /\ Qle p 100
    /\ (py "Python developer with Docker" = py "Python developer with Docker"
        -> p = 100%Q).
Proof.
  apply (@matchKeywords_range_and_self_match Fixture.builtins Fixture.nltk
           {| DataComparator.resume_data := py "Python developer with Docker";
              DataComparator.vacancy_data := py "Python developer with Docker";
              DataComparator.lang := en |}
           [py "python"; py "developer"; py "docker"]).
  - reflexivity.
  - reflexivity.
  - discriminate.
Defined.

(** C5, as stated, fails: for two equal texts that yield no keyword,
    here the empty text, [matchKeywords] raises [ZeroDivisionError]; it
    returns neither a value between 0 and 100 nor [100.0]. *)
Lemma matchKeywords_equal_texts_not_100 :
  Fixture.matchKeywords
    {| DataComparator.resume_data := py "";
       DataComparator.vacancy_data := py "";
       DataComparator.lang := ru |}
  = Raise ZeroDivisionError
  /\ (forall p,
        Fixture.matchKeywords
          {| DataComparator.resume_data := py "";
             DataComparator.vacancy_data := py "";
             DataComparator.lang := ru |}
        <> Ok p).
Proof.
  split; [reflexivity | intros p; discriminate].
Qed.

(** ** Vector similarity ([matchSimilarity]) *)

Lemma vocab_insert_not_nil (t : str) (v : list str) :
  sklearn.vocab_insert t v <> [].
Proof.
  destruct v as [| u v']; simpl.
  - discriminate.
  - destruct (str_eqb t u); [discriminate |].
    destruct (sklearn.str_ltb t u); discriminate.
Qed.

Lemma vocabulary_not_nil (tokens : list str) :
  tokens <> [] -> fold_right sklearn.vocab_insert [] tokens <> [].
Proof.
  destruct tokens as [| t rest]; [congruence |]. intros _. simpl.
  apply vocab_insert_not_nil.
Qed.

Lemma count_row_nil (vocabulary : list str) :
  Forall (fun z => z = 0%Z)
         (map (fun t => sklearn.count_term t []) vocabulary).
Proof.
  apply Forall_forall. intros z Hin. apply in_map_iff in Hin.
  destruct Hin as [t [<- _]]. reflexivity.
Qed.

Lemma sum_squares_zero (row : list Z) :
  Forall (fun z => z = 0%Z) row ->
  fold_left (fun s x => s + x * x)%Z row 0%Z = 0%Z.
Proof.
  induction 1 as [| z row Hz _ IH]; simpl.
  - reflexivity.
  - subst z. exact IH.
Qed.

Section Similarity.
Context `{Sklearn}.

Lemma normalize_zero_row (row : list Z) :
  Forall (fun z => z = 0%Z) row ->
  Forall (fun q => Qeq q 0) (sklearn.normalize_row row).
Proof.
  intros Hz. unfold sklearn.normalize_row.
  rewrite (sum_squares_zero row Hz). simpl.
  apply Forall_forall. intros q Hin. apply in_map_iff in Hin.
  destruct Hin as [z [<- Hin]]. rewrite Forall_forall in Hz.
  rewrite (Hz z Hin). reflexivity.
Qed.

Lemma dot_loop_zero (ps : list (Q * Q)) (s : Q) :
  Forall (fun p => Qeq (fst p) 0 \/ Qeq (snd p) 0) ps ->
  Qeq (fold_left (fun s p => Qplus s (Qmult (fst p) (snd p))) ps s) s.
Proof.
  intros Hz. revert s. induction Hz as [| p ps Hp _ IH]; intros s; simpl.
  - reflexivity.
  - rewrite IH. destruct Hp as [Hp | Hp]; rewrite Hp; ring.
Qed.

Lemma dot_zero_l (a b : list Q) :
  Forall (fun q => Qeq q 0) a -> Qeq (sklearn.dot a b) 0.
Proof.
  intros Hz. unfold sklearn.dot. apply dot_loop_zero.
  apply Forall_forall. intros [x y] Hin. left. simpl.
  rewrite Forall_forall in Hz. apply Hz.
  apply (in_combine_l a b x y Hin).
Qed.

Lemma dot_zero_r (a b : list Q) :
  Forall (fun q => Qeq q 0) b -> Qeq (sklearn.dot a b) 0.
Proof.
  intros Hz. unfold sklearn.dot. apply dot_loop_zero.
  apply Forall_forall. intros [x y] Hin. right. simpl.
  rewrite Forall_forall in Hz. apply Hz.
  apply (in_combine_r a b x y Hin).
Qed.

Lemma py_round2_zero (c : Q) : Qeq c 0 -> py_round (Qmult c 100) 2 = 0%Q.
Proof.
  intros Hc. rewrite (py_round2_integer (Qmult c 100) 0).
  - reflexivity.
  - rewrite Hc. reflexivity.
Qed.

End Similarity.

(** C3, as the code has it. When exactly one of the two texts yields no
    term (its count vector is zero) [matchSimilarity] returns [0.0]; when
    neither text yields a term, as for two empty texts, the vectorizer
    raises [ValueError] for the empty vocabulary and no percentage is
    returned. *)
Theorem matchSimilarity_zero_vector `{Sklearn} (self : DataComparator.t) :
  (analyzer (DataComparator.resume_data self) = []
   /\ analyzer (DataComparator.vacancy_data self) = [] ->
   DataComparator.matchSimilarity self = Raise ValueError)
  /\
  ((analyzer (DataComparator.resume_data self) = []
    /\ analyzer (DataComparator.vacancy_data self) <> [])
   \/ (analyzer (DataComparator.resume_data self) <> []
       /\ analyzer (DataComparator.vacancy_data self) = []) ->
   DataComparator.matchSimilarity self = Ok 0%Q).
Proof.
  unfold DataComparator.matchSimilarity, sklearn.fit_transform.
  cbn [map List.concat]. rewrite app_nil_r. split.
  - intros [-> ->]. reflexivity.
  - intros Hone.
    assert (Hvoc : analyzer (DataComparator.resume_data self)
                   ++ analyzer (DataComparator.vacancy_data self) <> []).
    { intros Happ. apply app_eq_nil in Happ. destruct Happ as [Hr Hv].
      destruct Hone as [[_ Hne] | [Hne _]]; contradiction. }
    apply vocabulary_not_nil in Hvoc.
    destruct (fold_right sklearn.vocab_insert []
                (analyzer (DataComparator.resume_data self)
                 ++ analyzer (DataComparator.vacancy_data self)))
      as [| t vocabulary] eqn:Evoc; [congruence |].
    cbn [bind]. unfold sklearn.cosine_similarity. cbn [map py_index nth_error bind].
    f_equal. apply py_round2_zero.
    destruct Hone as [[Hr _] | [_ Hv]].
    + apply dot_zero_l. apply normalize_zero_row. rewrite Hr.
      apply (count_row_nil (t :: vocabulary)).
    + apply dot_zero_r. apply normalize_zero_row. rewrite Hv.
      apply (count_row_nil (t :: vocabulary)).
Qed.

Lemma matchSimilarity_zero_vector_witness :
  Fixture.matchSimilarity
    {| DataComparator.resume_data := py "";
       DataComparator.vacancy_data := py "Docker skills";
       DataComparator.lang := en |}
  = Ok 0%Q
  /\ Fixture.matchSimilarity
       {| DataComparator.resume_data := py "?";
          DataComparator.vacancy_data := py "C #";
          DataComparator.lang := en |}
     = Raise ValueError.
Proof.
  split.
  - apply (@matchSimilarity_zero_vector Fixture.scikit
             {| DataComparator.resume_data := py "";
                DataComparator.vacancy_data := py "Docker skills";
                DataComparator.lang := en |}).
    left. split; [reflexivity | discriminate].
  - apply (@matchSimilarity_zero_vector Fixture.scikit
             {| DataComparator.resume_data := py "?";
                DataComparator.vacancy_data := py "C #";
                DataComparator.lang := en |}).
    split; reflexivity.
Defined.

(** C3, as stated, fails: for two empty texts [matchSimilarity] raises
    [ValueError] (empty vocabulary) and returns no [0.0]. *)
Lemma matchSimilarity_empty_texts_raise :
  Fixture.matchSimilarity
    {| DataComparator.resume_data := py "";
       DataComparator.vacancy_data := py "";
       DataComparator.lang := en |}
  = Raise ValueError
  /\ Fixture.matchSimilarity
       {| DataComparator.resume_data := py "";
          DataComparator.vacancy_data := py "";
          DataComparator.lang := en |}
     <> Ok 0%Q.
Proof.
  split; [reflexivity | discriminate].
Qed.

(** * Further properties of the code *)

(** ** [_clean_text] *)

Lemma clean_text_cases (text lang : str) :
  _clean_text text lang = replace_char slash space text
  \/ _clean_text text lang = replace_char slash space (filter keep_ru text)
  \/ _clean_text text lang = replace_char slash space (filter keep_en text).
Proof.
  destruct (supported lang) eqn:Hs.
  - destruct (supported_true lang Hs) as [-> | ->].
    + right. left. apply clean_text_ru.
    + right. right. apply clean_text_en.
  - left. apply clean_text_other. exact Hs.
Qed.

Lemma replace_char_idem (text : str) :
  replace_char slash space (replace_char slash space text)
  = replace_char slash space text.
Proof.
  apply replace_char_absent. apply replace_char_no_old. discriminate.
Qed.

(** A filter that keeps the space keeps everything that is left once the
    rejected characters are deleted and [/] is replaced. *)
Lemma filter_replace_filter (keep : char -> bool) (text : str) :
  keep space = true ->
  filter keep (replace_char slash space (filter keep text))
  = replace_char slash space (filter keep text).
Proof.
  intros Hsp. apply filter_all. intros c Hin.
  unfold replace_char in Hin. apply in_map_iff in Hin.
  destruct Hin as [c0 [Hc Hin]]. apply filter_In in Hin.
  destruct Hin as [_ Hkeep].
  destruct (N.eqb c0 slash); subst c; assumption.
Qed.

(** Normalising twice is normalising once, for every language value. *)
Theorem clean_text_idempotent (text lang : str) :
  _clean_text (_clean_text text lang) lang = _clean_text text lang.
Proof.
  destruct (supported lang) eqn:Hs.
  - destruct (supported_true lang Hs) as [-> | ->].
    + rewrite !clean_text_ru.
      rewrite (filter_replace_filter keep_ru text eq_refl).
      apply replace_char_idem.
    + rewrite !clean_text_en.
      rewrite (filter_replace_filter keep_en text eq_refl).
      apply replace_char_idem.
  - rewrite !(clean_text_other _ lang Hs). apply replace_char_idem.
Qed.

(** For every language value, supported or not, the normalised text holds
    no [/], is never longer than the input, and is the input itself when
    the input holds no [/] and only characters of the language's pattern
    (any character, for an unsupported language). *)
Theorem clean_text_no_slash_never_longer (text lang : str) :
  ~ In slash (_clean_text text lang)
  /\ (List.length (_clean_text text lang) <= List.length text)%nat
  /\ (~ In slash text ->
      Forall (fun c => (lang = ru -> keep_ru c = true)
                       /\ (lang = en -> keep_en c = true)) text ->
      _clean_text text lang = text).
Proof.
  split; [| split].
  - destruct (clean_text_cases text lang) as [E | [E | E]]; rewrite E;
      apply replace_char_no_old; discriminate.
  - destruct (clean_text_cases text lang) as [E | [E | E]]; rewrite E;
      unfold replace_char; rewrite length_map;
      [apply le_n | apply filter_length_le | apply filter_length_le].
  - intros Hno Hall. rewrite Forall_forall in Hall.
    destruct (supported lang) eqn:Hs.
    + destruct (supported_true lang Hs) as [-> | ->].
      * rewrite clean_text_ru, filter_all.
        -- apply replace_char_absent. exact Hno.
        -- intros c Hin. apply (Hall c Hin). reflexivity.
      * rewrite clean_text_en, filter_all.
        -- apply replace_char_absent. exact Hno.
        -- intros c Hin. apply (Hall c Hin). reflexivity.
    + rewrite (clean_text_other text lang Hs).
      apply replace_char_absent. exact Hno.
Qed.

Lemma clean_text_no_slash_never_longer_witness :
  ~ In slash (_clean_text (py "C/C++ 2024") en)
  /\ (List.length (_clean_text (py "C/C++ 2024") en)
      <= List.length (py "C/C++ 2024"))%nat
  /\ _clean_text (py "Hello world 123") en = py "Hello world 123".
Proof.
  destruct (clean_text_no_slash_never_longer (py "C/C++ 2024") en)
    as [Hno [Hlen _]].
  destruct (clean_text_no_slash_never_longer (py "Hello world 123") en)
    as [_ [_ Hfix]].
  split; [exact Hno |]. split; [exact Hlen |]. apply Hfix.
  - intros Hin. vm_compute in Hin. intuition discriminate.
  - apply Forall_forall. intros c Hin. split; intros E.
    + discriminate E.
    + vm_compute in Hin.
      repeat destruct Hin as [<- | Hin]; try reflexivity. contradiction.
Defined.

(** ** [_unique_tokens] *)

Lemma first_occurrences_from_length (seen stream : list str) :
  (List.length (first_occurrences_from seen stream)
   <= List.length stream)%nat.
Proof.
  revert seen. induction stream as [| x rest IH]; intros seen; simpl.
  - apply le_n.
  - rewrite length_app. specialize (IH (seen ++ [x])).
    destruct (py_in x seen); simpl; lia.
Qed.

Lemma first_occurrences_from_fixed (seen stream : list str) :
  NoDup stream -> (forall x, In x stream -> ~ In x seen) ->
  first_occurrences_from seen stream = stream.
Proof.
  revert seen. induction stream as [| x rest IH]; intros seen Hnd Hdis;
    simpl.
  - reflexivity.
  - inversion Hnd as [| ? ? Hx Hrest]; subst.
    replace (py_in x seen) with false.
    + simpl. f_equal. apply IH; [exact Hrest |].
      intros y Hy Hin. apply in_app_iff in Hin. destruct Hin as [Hin | Hin].
      * apply (Hdis y); [right; exact Hy | exact Hin].
      * destruct Hin as [-> | []]. contradiction.
    + symmetry. apply py_in_false. apply Hdis. left. reflexivity.
Qed.

(** For every token list, [_unique_tokens] returns a list without
    duplicates that holds exactly the lower-cased forms of the tokens, is
    never longer than the input, and lists them in the order of their
    first occurrences. *)
Theorem unique_tokens_spec `{Builtins} (token_list : list str) :
  NoDup (_unique_tokens token_list)
  /\ (forall k, In k (_unique_tokens token_list)
                <-> exists x, In x token_list /\ k = lower x)
  /\ (List.length (_unique_tokens token_list)
      <= List.length token_list)%nat
  /\ _unique_tokens token_list = first_occurrences (map lower token_list).
Proof.
  split; [apply unique_tokens_NoDup |].
  split; [intros k; apply unique_tokens_In |].
  split; [| apply unique_tokens_first_occurrences].
  rewrite unique_tokens_first_occurrences. unfold first_occurrences.
  rewrite <- (length_map lower token_list).
  apply first_occurrences_from_length.
Qed.

(** A token list without duplicates whose tokens are all lower-case is
    returned as it is. *)
Theorem unique_tokens_fixed_point `{Builtins} (token_list : list str) :
  NoDup token_list ->
  (forall x, In x token_list -> lower x = x) ->
  _unique_tokens token_list = token_list.
Proof.
  intros Hnd Hlow. rewrite unique_tokens_first_occurrences.
  replace (map lower token_list) with token_list.
  - apply first_occurrences_from_fixed; [exact Hnd | intros x _ []].
  - rewrite <- (map_id token_list) at 1. apply map_ext_in.
    intros x Hin. symmetry. apply Hlow. exact Hin.
Qed.

Lemma unique_tokens_fixed_point_witness :
  @_unique_tokens Fixture.builtins [py "python"; py "sql"; py "docker"]
  = [py "python"; py "sql"; py "docker"].
Proof.
  apply (@unique_tokens_fixed_point Fixture.builtins).
  - repeat constructor; vm_compute; intuition discriminate.
  - intros x Hin. vm_compute in Hin.
    repeat destruct Hin as [<- | Hin]; try reflexivity. contradiction.
Defined.

(** Deduplicating twice is deduplicating once, [str.lower] being
    idempotent. *)
Theorem unique_tokens_idempotent `{Builtins} (token_list : list str) :
  (forall x, lower (lower x) = lower x) ->
  _unique_tokens (_unique_tokens token_list) = _unique_tokens token_list.
Proof.
  intros Hidem. rewrite (unique_tokens_first_occurrences (_unique_tokens _)).
  replace (map lower (_unique_tokens token_list))
    with (_unique_tokens token_list).
  - apply first_occurrences_from_fixed;
      [apply unique_tokens_NoDup | intros x _ []].
  - rewrite <- (map_id (_unique_tokens token_list)) at 1. apply map_ext_in.
    intros k Hin. apply unique_tokens_In in Hin.
    destruct Hin as [x [_ ->]]. symmetry. apply Hidem.
Qed.

Lemma unique_tokens_idempotent_witness :
  @_unique_tokens Fixture.builtins
    (@_unique_tokens Fixture.builtins
       [py "Python"; py "SQL"; py "python"; py "Sql"])
  = @_unique_tokens Fixture.builtins
      [py "Python"; py "SQL"; py "python"; py "Sql"].
Proof.
  apply (@unique_tokens_idempotent Fixture.builtins).
  exact fx_lower_idem.
Defined.

(** ** [_nltk_stopwords_removal] and [_filter_token_tag] *)



(** For a language other than ["ru"] and ["en"] the stop-word removal
    returns the empty list on the empty list and raises [NameError] on
    any other list. *)
Theorem nltk_stopwords_removal_unsupported `{NLTK} (token_list : list str)
    (lang : str) :
  supported lang = false ->
  (token_list = [] -> _nltk_stopwords_removal token_list lang = Ok [])
  /\ (token_list <> [] ->
      _nltk_stopwords_removal token_list lang = Raise NameError).
Proof.
  intros Hs. rewrite (nltk_stopwords_removal_other token_list lang Hs).
  destruct token_list; split; intros E; try reflexivity; congruence.
Qed.

Lemma nltk_stopwords_removal_unsupported_witness :
  @_nltk_stopwords_removal Fixture.nltk [] (py "de") = Ok []
  /\ @_nltk_stopwords_removal Fixture.nltk [py "Haus"] (py "de")
     = Raise NameError.
Proof.
  assert (Hs : supported (py "de") = false) by reflexivity.
  split.
  - apply (@nltk_stopwords_removal_unsupported Fixture.nltk [] (py "de") Hs).
    reflexivity.
  - apply (@nltk_stopwords_removal_unsupported Fixture.nltk [py "Haus"]
             (py "de") Hs).
    discriminate.
Defined.

(** The tag filter is monotone in its filter list and works token by
    token: a token that passes a list passes every list that includes it,
    the filter of a concatenation is the concatenation of the filters,
    and the output is never longer than the tagged stream. *)
Theorem filter_token_tag_monotone {T} `{PyStr T}
    (tagged tagged' : list (T * str)) (allow allow' : list str) :
  incl allow allow' ->
  (forall x, In x (_filter_token_tag tagged allow) ->
             In x (_filter_token_tag tagged allow'))
  /\ _filter_token_tag (tagged ++ tagged') allow
     = _filter_token_tag tagged allow ++ _filter_token_tag tagged' allow
  /\ (List.length (_filter_token_tag tagged allow)
      <= List.length tagged)%nat.
Proof.
  intros Hincl. split; [| split].
  - intros x Hin. apply filter_token_tag_In in Hin.
    destruct Hin as [tok [tag [Hin [Htag Hx]]]].
    apply filter_token_tag_In. exists tok, tag. auto.
  - unfold _filter_token_tag. rewrite filter_app, !map_app. reflexivity.
  - unfold _filter_token_tag. rewrite !length_map. apply filter_length_le.
Qed.

Lemma filter_token_tag_monotone_witness :
  In (py "Python")
     (_filter_token_tag (Fixture.fx_pos_tag [py "Python"; py "developer"])
        nltk_filter_tag_list).
Proof.
  assert (Hincl : incl spacy_filter_tag_list nltk_filter_tag_list).
  { intros tag Hin. destruct Hin as [<- | []]. left. reflexivity. }
  destruct (@filter_token_tag_monotone str str_PyStr
              (Fixture.fx_pos_tag [py "Python"; py "developer"]) []
              spacy_filter_tag_list nltk_filter_tag_list Hincl)
    as [Hmono _].
  apply Hmono. left. reflexivity.
Defined.

(** ** The two pipelines as wholes *)

(** For a supported language the NLTK pipeline returns exactly the
    lower-cased forms of the tokens whose tag is in the filter list and
    which are not written as an entry of the stop-word list. *)
Theorem nltk_keywords_membership `{Builtins} `{NLTK} (data lang : str) :
  supported lang = true ->
  exists keywords,
    nltk_keywords data lang = Ok keywords
    /\ forall k,
         In k keywords
         <-> exists tok tag,
               In (tok, tag) (nltk_tagged_tokens data lang)
               /\ In tag nltk_filter_tag_list
               /\ ~ In tok (nltk_stop_words lang)
               /\ k = lower tok.
Proof.
  intros Hs. eexists. split; [apply nltk_keywords_supported; exact Hs |].
  intros k. rewrite unique_tokens_In. unfold nltk_surviving_tokens. split.
  - intros [x [Hin ->]]. apply filter_In in Hin. destruct Hin as [Hin Hstop].
    apply negb_true_iff, py_in_false in Hstop.
    unfold nltk_candidates in Hin. apply filter_token_tag_In in Hin.
    destruct Hin as [tok [tag [Hin [Htag ->]]]]. exists tok, tag. auto.
  - intros [tok [tag [Hin [Htag [Hstop ->]]]]]. exists tok.
    split; [| reflexivity]. apply filter_In. split.
    + unfold nltk_candidates. apply filter_token_tag_In.
      exists tok, tag. auto.
    + apply negb_true_iff, py_in_false. exact Hstop.
Qed.

Lemma nltk_keywords_membership_witness :
  exists keywords,
    Fixture.nltk_keywords (py "The remote Python developer works") en
    = Ok keywords
    /\ forall k,
         In k keywords
         <-> exists tok tag,
               In (tok, tag)
                  (@nltk_tagged_tokens Fixture.nltk
                     (py "The remote Python developer works") en)
               /\ In tag nltk_filter_tag_list
               /\ ~ In tok (@nltk_stop_words Fixture.nltk en)
               /\ k = Fixture.fx_lower tok.
Proof.
  apply (@nltk_keywords_membership Fixture.builtins Fixture.nltk
           (py "The remote Python developer works") en).
  reflexivity.
Defined.

(** Extracting the keywords of a text that is already normalised gives
    what extracting them from the original text gives, in either
    pipeline and for every language value. *)
Theorem keywords_of_normalised_text `{Builtins} `{NLTK} `{SpaCy}
    (data lang : str) :
  nltk_keywords (_clean_text data lang) lang = nltk_keywords data lang
  /\ spacy_keywords (_clean_text data lang) lang = spacy_keywords data lang.
Proof.
  unfold nltk_keywords, spacy_keywords.
  rewrite clean_text_idempotent. split; reflexivity.
Qed.

(** For a supported language the spaCy pipeline raises nothing and
    returns a list without duplicates that holds exactly the lower-cased
    texts of the tokens tagged NNP which are not written as an entry of
    the model's stop words, in the order of their first occurrences. *)
Theorem spacy_keywords_spec `{Builtins} `{SpaCy} (data lang : str) :
  supported lang = true ->
  exists keywords,
    spacy_keywords data lang = Ok keywords
    /\ NoDup keywords
    /\ (forall k,
          In k keywords
          <-> exists tok,
                In tok (spacy_tokens data lang)
                /\ tag_ tok = py "NNP"
                /\ ~ In (text tok) (Defaults_stop_words (spacy_model lang))
                /\ k = lower (text tok))
    /\ keywords
       = first_occurrences
           (map lower
              (_spacy_stopwords_removal (spacy_candidates data lang)
                 (spacy_model lang))).
Proof.
  intros Hs. eexists. split; [apply spacy_keywords_supported; exact Hs |].
  split; [apply unique_tokens_NoDup |].
  split; [| apply unique_tokens_first_occurrences].
  intros k. rewrite unique_tokens_In. unfold _spacy_stopwords_removal. split.
  - intros [x [Hin ->]]. apply filter_In in Hin. destruct Hin as [Hin Hstop].
    apply negb_true_iff, py_in_false in Hstop.
    apply spacy_candidates_In in Hin.
    destruct Hin as [tok [Hin [Htag ->]]]. exists tok. auto.
  - intros [tok [Hin [Htag [Hstop ->]]]]. exists (text tok).
    split; [| reflexivity]. apply filter_In. split.
    + apply spacy_candidates_In. exists tok. auto.
    + apply negb_true_iff, py_in_false. exact Hstop.
Qed.

Lemma spacy_keywords_spec_witness :
  exists keywords,
    Fixture.spacy_keywords (py "Python and SQL; python, Docker") en
    = Ok keywords
    /\ NoDup keywords
    /\ (forall k,
          In k keywords
          <-> exists tok,
                In tok (@spacy_tokens Fixture.spacy
                          (py "Python and SQL; python, Docker") en)
                /\ tag_ tok = py "NNP"
                /\ ~ In (text tok)
                        (@Defaults_stop_words Fixture.spacy
                           (@spacy_model Fixture.spacy en))
                /\ k = Fixture.fx_lower (text tok))
    /\ keywords
       = first_occurrences
           (map Fixture.fx_lower
              (@_spacy_stopwords_removal Fixture.spacy
                 (@spacy_candidates Fixture.spacy
                    (py "Python and SQL; python, Docker") en)
                 (@spacy_model Fixture.spacy en))).
Proof.
  apply (@spacy_keywords_spec Fixture.builtins Fixture.spacy
           (py "Python and SQL; python, Docker") en).
  reflexivity.
Defined.

(** The spaCy pipeline too removes stop words before it lower-cases and
    compares the tokens as they are written: a token tagged NNP that is
    not itself a stop word and whose lower-case form is one puts a stop
    word into the keyword list. *)
Theorem spacy_stopword_removal_is_case_sensitive `{Builtins} `{SpaCy}
    (data lang w : str) :
  supported lang = true ->
  py_in w (spacy_candidates data lang) = true ->
  py_in w (Defaults_stop_words (spacy_model lang)) = false ->
  py_in (lower w) (Defaults_stop_words (spacy_model lang)) = true ->
  exists keywords,
    spacy_keywords data lang = Ok keywords
    /\ In (lower w) keywords
    /\ In (lower w) (Defaults_stop_words (spacy_model lang)).
Proof.
  intros Hs Hcand Hnot Hstop. eexists.
  split; [apply spacy_keywords_supported; exact Hs |].
  split; [| apply py_in_true; exact Hstop].
  apply unique_tokens_In. exists w. split; [| reflexivity].
  unfold _spacy_stopwords_removal. apply filter_In.
  split; [apply py_in_true; exact Hcand |]. rewrite Hnot. reflexivity.
Qed.

Lemma spacy_stopword_removal_is_case_sensitive_witness :
  exists keywords,
    @spacy_keywords Fixture.builtins CapitalsFixture.spacy
      (py "Such Python skills") en = Ok keywords
    /\ In (py "such") keywords
    /\ In (py "such") Fixture.english_stop_words.
Proof.
  apply (@spacy_stopword_removal_is_case_sensitive Fixture.builtins
           CapitalsFixture.spacy (py "Such Python skills") en (py "Such"));
    reflexivity.
Defined.

(** ** [matchKeywords] *)

Lemma filter_none {A} (p : A -> bool) (l : list A) :
  (forall x, In x l -> p x = false) -> filter p l = [].
Proof.
  induction l as [| a l IH]; intros Hnone; simpl.
  - reflexivity.
  - rewrite (Hnone a (or_introl eq_refl)). apply IH.
    intros x Hin. apply Hnone. right. exact Hin.
Qed.

Section KeywordMatch.
Context `{Builtins} `{NLTK}.

Lemma matchKeywords_of_keywords (self : DataComparator.t)
    (kr kv : list str) :
  nltk_keywords (DataComparator.resume_data self) (DataComparator.lang self)
  = Ok kr ->
  nltk_keywords (DataComparator.vacancy_data self) (DataComparator.lang self)
  = Ok kv ->
  DataComparator.matchKeywords self
  = (q <- py_truediv
            (Z.of_nat (List.length (filter (fun w => py_in w kr) kv)))
            (Z.of_nat (List.length kv)) ;;
     ret (py_round (Qmult q 100) 2)).
Proof.
  intros Hr Hv. unfold DataComparator.matchKeywords. rewrite Hr, Hv.
  reflexivity.
Qed.

Lemma nltk_keywords_other (data lang : str) :
  supported lang = false ->
  nltk_keywords data lang
  = match nltk_candidates data lang with
    | [] => Ok []
    | _ :: _ => Raise NameError
    end.
Proof.
  intros Hs. unfold nltk_keywords.
  change (_filter_token_tag _ nltk_filter_tag_list)
    with (nltk_candidates data lang).
  rewrite (nltk_stopwords_removal_other _ lang Hs).
  destruct (nltk_candidates data lang); reflexivity.
Qed.

Lemma py_truediv_pos (a : Z) (l : list str) :
  l <> [] ->
  py_truediv a (Z.of_nat (List.length l))
  = Ok (Qmake a (Z.to_pos (Z.of_nat (List.length l)))).
Proof.
  intros Hne. unfold py_truediv.
  destruct (Z.eqb_spec (Z.of_nat (List.length l)) 0) as [E | _].
  - destruct l; [congruence | simpl in E; lia].
  - reflexivity.
Qed.

End KeywordMatch.

(** When the vacancy yields at least one keyword and none of its keywords
    is a keyword of the resume, [matchKeywords] returns [0.0]. *)
Theorem matchKeywords_disjoint_zero `{Builtins} `{NLTK}
    (self : DataComparator.t) (keywords_resume keywords_vacancy : list str) :
  nltk_keywords (DataComparator.resume_data self) (DataComparator.lang self)
  = Ok keywords_resume ->
  nltk_keywords (DataComparator.vacancy_data self) (DataComparator.lang self)
  = Ok keywords_vacancy ->
  keywords_vacancy <> [] ->
  (forall w, In w keywords_vacancy -> ~ In w keywords_resume) ->
  DataComparator.matchKeywords self = Ok 0%Q.
Proof.
  intros Hr Hv Hne Hdis.
  rewrite (matchKeywords_of_keywords self _ _ Hr Hv).
  replace (filter (fun w => py_in w keywords_resume) keywords_vacancy)
    with (@nil str).
  - rewrite (py_truediv_pos _ keywords_vacancy Hne). reflexivity.
  - symmetry. apply filter_none. intros w Hin.
    apply py_in_false. apply Hdis. exact Hin.
Qed.

Lemma matchKeywords_disjoint_zero_witness :
  Fixture.matchKeywords
    {| DataComparator.resume_data := py "Python developer";
       DataComparator.vacancy_data := py "Docker experience";
       DataComparator.lang := en |}
  = Ok 0%Q.
Proof.
  apply (@matchKeywords_disjoint_zero Fixture.builtins Fixture.nltk
           {| DataComparator.resume_data := py "Python developer";
              DataComparator.vacancy_data := py "Docker experience";
              DataComparator.lang := en |}
           [py "python"; py "developer"] [py "docker"; py "experience"]).
  - reflexivity.
  - reflexivity.
  - discriminate.
  - intros w Hin Hin'. vm_compute in Hin, Hin'.
    repeat destruct Hin as [<- | Hin]; try contradiction;
      intuition discriminate.
Defined.

(** When the vacancy yields at least one keyword and every keyword of it
    is a keyword of the resume, [matchKeywords] returns [100.0], whatever
    else the resume holds. *)
Theorem matchKeywords_all_found `{Builtins} `{NLTK}
    (self : DataComparator.t) (keywords_resume keywords_vacancy : list str) :
  nltk_keywords (DataComparator.resume_data self) (DataComparator.lang self)
  = Ok keywords_resume ->
  nltk_keywords (DataComparator.vacancy_data self) (DataComparator.lang self)
  = Ok keywords_vacancy ->
  keywords_vacancy <> [] ->
  (forall w, In w keywords_vacancy -> In w keywords_resume) ->
  DataComparator.matchKeywords self = Ok 100%Q.
Proof.
  intros Hr Hv Hne Hall.
  rewrite (matchKeywords_of_keywords self _ _ Hr Hv).
  rewrite filter_all
    by (intros w Hin; apply py_in_true; apply Hall; exact Hin).
  rewrite (py_truediv_pos _ keywords_vacancy Hne). cbn [bind]. f_equal.
  rewrite (py_round2_integer _ 100); [reflexivity |].
  assert (Hn : (0 < Z.of_nat (List.length keywords_vacancy))%Z).
  { destruct keywords_vacancy; [congruence | simpl; lia]. }
  unfold Qeq. cbn [Qnum Qden Qmult inject_Z].
  rewrite Pos2Z.inj_mul, Z2Pos.id by exact Hn. lia.
Qed.

Lemma matchKeywords_all_found_witness :
  Fixture.matchKeywords
    {| DataComparator.resume_data :=
         py "Python developer with SQL and Docker experience";
       DataComparator.vacancy_data := py "Docker and Python";
       DataComparator.lang := en |}
  = Ok 100%Q.
Proof.
  apply (@matchKeywords_all_found Fixture.builtins Fixture.nltk
           {| DataComparator.resume_data :=
                py "Python developer with SQL and Docker experience";
              DataComparator.vacancy_data := py "Docker and Python";
              DataComparator.lang := en |}
           [py "python"; py "developer"; py "sql"; py "docker";
            py "experience"]
           [py "docker"; py "python"]).
  - reflexivity.
  - reflexivity.
  - discriminate.
  - intros w Hin. vm_compute in Hin. vm_compute.
    repeat destruct Hin as [<- | Hin]; try contradiction; tauto.
Defined.

(** For a language other than ["ru"] and ["en"], [matchKeywords] never
    returns a percentage: it raises [NameError] as soon as a token of
    either text passes the tag filter, and [ZeroDivisionError]
    otherwise. *)
Theorem matchKeywords_unsupported_language `{Builtins} `{NLTK}
    (self : DataComparator.t) :
  supported (DataComparator.lang self) = false ->
  (forall p, DataComparator.matchKeywords self <> Ok p)
  /\ (nltk_candidates (DataComparator.resume_data self)
        (DataComparator.lang self) = []
      /\ nltk_candidates (DataComparator.vacancy_data self)
           (DataComparator.lang self) = [] ->
      DataComparator.matchKeywords self = Raise ZeroDivisionError)
  /\ (nltk_candidates (DataComparator.resume_data self)
        (DataComparator.lang self) <> []
      \/ nltk_candidates (DataComparator.vacancy_data self)
           (DataComparator.lang self) <> [] ->
      DataComparator.matchKeywords self = Raise NameError).
Proof.
  intros Hs. unfold DataComparator.matchKeywords.
  rewrite !(nltk_keywords_other _ _ Hs).
  destruct (nltk_candidates (DataComparator.resume_data self)
              (DataComparator.lang self)) as [| cr crs];
    destruct (nltk_candidates (DataComparator.vacancy_data self)
                (DataComparator.lang self)) as [| cv cvs];
    cbn; (split; [intros p; discriminate |]); split;
    try reflexivity; try (intros [E E']; discriminate);
    intros [E | E]; congruence.
Qed.

Lemma matchKeywords_unsupported_language_witness :
  Fixture.matchKeywords
    {| DataComparator.resume_data := py "Looking for";
       DataComparator.vacancy_data := py "1234";
       DataComparator.lang := py "de" |}
  = Raise ZeroDivisionError
  /\ Fixture.matchKeywords
       {| DataComparator.resume_data := py "Looking for";
          DataComparator.vacancy_data := py "Python developer";
          DataComparator.lang := py "de" |}
     = Raise NameError.
Proof.
  split.
  - apply (@matchKeywords_unsupported_language Fixture.builtins
             Fixture.nltk
             {| DataComparator.resume_data := py "Looking for";
                DataComparator.vacancy_data := py "1234";
                DataComparator.lang := py "de" |});
      [reflexivity | split; reflexivity].
  - apply (@matchKeywords_unsupported_language Fixture.builtins
             Fixture.nltk
             {| DataComparator.resume_data := py "Looking for";
                DataComparator.vacancy_data := py "Python developer";
                DataComparator.lang := py "de" |});
      [reflexivity | right; discriminate].
Defined.

(** ** [matchSimilarity] *)

Lemma count_term_absent (t : str) (tokens : list str) :
  ~ In t tokens -> sklearn.count_term t tokens = 0%Z.
Proof.
  intros Hno. unfold sklearn.count_term. rewrite filter_none; [reflexivity |].
  intros x Hin. unfold str_eqb. destruct (str_eq_dec t x) as [-> | _].
  - contradiction.
  - reflexivity.
Qed.

Lemma in_combine_map {A B C} (f : A -> B) (g : A -> C) (l : list A)
    (p : B) (q : C) :
  In (p, q) (combine (map f l) (map g l)) ->
  exists a, In a l /\ p = f a /\ q = g a.
Proof.
  induction l as [| a l IH]; simpl.
  - intros [].
  - intros [E | Hin].
    + inversion E. exists a. auto.
    + destruct (IH Hin) as [a' [Hin' Heq]]. exists a'. auto.
Qed.

Section SimilarityMore.
Context `{Sklearn}.

(** The row normalisation maps each count on its own, and maps a zero
    count to zero. *)
Lemma normalize_row_map (row : list Z) :
  exists g : Z -> Q,
    sklearn.normalize_row row = map g row /\ Qeq (g 0%Z) 0.
Proof.
  unfold sklearn.normalize_row.
  destruct (Z.eqb _ 0).
  - exists inject_Z. split; reflexivity.
  - eexists (fun x => Qdiv (inject_Z x) _). split; [reflexivity |].
    unfold Qdiv. apply Qmult_0_l.
Qed.

Lemma matchSimilarity_unfold (self : DataComparator.t) (t : str)
    (vocabulary : list str) :
  joint_vocabulary (DataComparator.resume_data self)
    (DataComparator.vacancy_data self) = t :: vocabulary ->
  DataComparator.matchSimilarity self
  = Ok (py_round
          (Qmult
             (sklearn.dot
                (sklearn.normalize_row
                   (count_vector (t :: vocabulary)
                      (DataComparator.resume_data self)))
                (sklearn.normalize_row
                   (count_vector (t :: vocabulary)
                      (DataComparator.vacancy_data self))))
             100) 2).
Proof.
  unfold joint_vocabulary. intros Hvoc.
  unfold DataComparator.matchSimilarity, sklearn.fit_transform.
  cbn [map List.concat]. rewrite app_nil_r, Hvoc. reflexivity.
Qed.

End SimilarityMore.

(** When the two texts yield at least one term between them and share
    none, [matchSimilarity] returns [0.0], whatever the square root
    computes. *)
Theorem matchSimilarity_disjoint_terms `{Sklearn} (self : DataComparator.t) :
  analyzer (DataComparator.resume_data self)
    ++ analyzer (DataComparator.vacancy_data self) <> [] ->
  (forall t, In t (analyzer (DataComparator.resume_data self)) ->
             ~ In t (analyzer (DataComparator.vacancy_data self))) ->
  DataComparator.matchSimilarity self = Ok 0%Q.
Proof.
  intros Hsome Hdis. apply vocabulary_not_nil in Hsome.
  destruct (joint_vocabulary (DataComparator.resume_data self)
              (DataComparator.vacancy_data self)) as [| t vocabulary] eqn:Evoc;
    [contradiction |].
  rewrite (matchSimilarity_unfold self t vocabulary Evoc).
  f_equal. apply py_round2_zero. unfold sklearn.dot. apply dot_loop_zero.
  destruct (normalize_row_map
              (count_vector (t :: vocabulary)
                 (DataComparator.resume_data self))) as [g [-> Hg]].
  destruct (normalize_row_map
              (count_vector (t :: vocabulary)
                 (DataComparator.vacancy_data self))) as [g' [-> Hg']].
  unfold count_vector. rewrite !map_map.
  apply Forall_forall. intros [p q] Hin.
  apply in_combine_map in Hin. destruct Hin as [u [_ [-> ->]]]. simpl.
  destruct (in_dec str_eq_dec u
              (analyzer (DataComparator.resume_data self))) as [Hin | Hno].
  - right. rewrite (count_term_absent u _ (Hdis u Hin)). exact Hg'.
  - left. rewrite (count_term_absent u _ Hno). exact Hg.
Qed.

Lemma matchSimilarity_disjoint_terms_witness :
  Fixture.matchSimilarity
    {| DataComparator.resume_data := py "Python developer";
       DataComparator.vacancy_data := py "Docker, SQL!";
       DataComparator.lang := en |}
  = Ok 0%Q.
Proof.
  apply (@matchSimilarity_disjoint_terms Fixture.scikit
           {| DataComparator.resume_data := py "Python developer";
              DataComparator.vacancy_data := py "Docker, SQL!";
              DataComparator.lang := en |}).
  - discriminate.
  - intros t Hin Hin'. vm_compute in Hin, Hin'.
    repeat destruct Hin as [<- | Hin]; try contradiction;
      intuition discriminate.
Defined.

(** A rational strictly within one half of an integer rounds to it. *)
Lemma round_half_even_near (x : Q) (m : Z) :
  Qlt (Qminus (inject_Z m) (Qmake 1 2)) x ->
  Qlt x (Qplus (inject_Z m) (Qmake 1 2)) ->
  round_half_even x = m.
Proof.
  unfold Qlt, round_half_even. destruct x as [a d].
  cbn [Qnum Qden inject_Z Qminus Qplus Qopp]. intros Hlo Hhi.
  pose proof (Z.div_mod a (Z.pos d) ltac:(discriminate)) as Hdm.
  pose proof (Z.mod_pos_bound a (Z.pos d) ltac:(reflexivity)) as Hr.
  assert (Hlo' : ((2 * m - 1) * Z.pos d < 2 * a)%Z) by lia.
  assert (Hhi' : (2 * a < (2 * m + 1) * Z.pos d)%Z) by lia.
  assert (Hf : (a / Z.pos d = m \/ a / Z.pos d = m - 1)%Z) by nia.
  destruct (Z.compare_spec (2 * (a mod Z.pos d)) (Z.pos d)) as [E | E | E];
    destruct Hf as [Hf | Hf]; rewrite ?Hf in *;
    try destruct (Z.even _); nia.
Qed.

Section SelfSimilarity.
Context `{Sklearn}.

(** The product loop of [dot] on a row divided by [n], against the sum
    loop of the squared norm. *)
Lemma dot_loop_scaled (n : Q) (row : list Z) (z : Z) (acc : Q) :
  ~ Qeq n 0 ->
  Qeq (fold_left (fun s p => Qplus s (Qmult (fst p) (snd p)))
         (combine (map (fun x => Qdiv (inject_Z x) n) row)
                  (map (fun x => Qdiv (inject_Z x) n) row))
         acc)
      (Qplus acc
         (Qdiv (Qminus
                  (inject_Z (fold_left (fun s x => s + x * x)%Z row z))
                  (inject_Z z))
               (Qmult n n))).
Proof.
  intros Hn. revert z acc. induction row as [| x row IH]; intros z acc;
    simpl.
  - field. exact Hn.
  - rewrite (IH (z + x * x)%Z). rewrite !inject_Z_plus, !inject_Z_mult.
    field. exact Hn.
Qed.

Lemma dot_self_scaled (n : Q) (row : list Z) :
  ~ Qeq n 0 ->
  Qeq (sklearn.dot (map (fun x => Qdiv (inject_Z x) n) row)
                   (map (fun x => Qdiv (inject_Z x) n) row))
      (Qdiv (inject_Z (squared_norm row)) (Qmult n n)).
Proof.
  intros Hn. unfold sklearn.dot, squared_norm.
  rewrite (dot_loop_scaled n row 0 0 Hn). field. exact Hn.
Qed.

End SelfSimilarity.

(** For two equal texts [matchSimilarity] returns [100.0], provided the
    square root of the squared norm [s] of the text's count row is
    positive and accurate enough: [s] lies strictly between [0.99995] and
    [1.00005] times the square of the computed root. *)
Theorem matchSimilarity_identical_texts `{Sklearn} (data lang : str) :
  let s :=
    inject_Z (squared_norm (count_vector (joint_vocabulary data data) data))
  in
  let n := np_sqrt s in
  Qlt 0 n ->
  Qlt (Qmult (Qmake 99995 100000) (Qmult n n)) s ->
  Qlt s (Qmult (Qmake 100005 100000) (Qmult n n)) ->
  DataComparator.matchSimilarity
    {| DataComparator.resume_data := data;
       DataComparator.vacancy_data := data;
       DataComparator.lang := lang |}
  = Ok 100%Q.
Proof.
  intros s n Hpos Hlo Hhi.
  assert (Hnn : Qlt 0 (Qmult n n)).
  { rewrite <- (Qmult_0_l n). apply Qmult_lt_compat_r; exact Hpos. }
  assert (Hs : Qlt 0 s).
  { apply Qle_lt_trans with (Qmult (Qmake 99995 100000) (Qmult n n));
      [| exact Hlo].
    apply Qmult_le_0_compat; [discriminate | apply Qlt_le_weak; exact Hnn]. }
  assert (Hn0 : ~ Qeq n 0).
  { intros E. rewrite E in Hpos. discriminate Hpos. }
  destruct (joint_vocabulary data data) as [| t vocabulary] eqn:Evoc.
  { exfalso. vm_compute in Hs. discriminate Hs. }
  rewrite (matchSimilarity_unfold
             {| DataComparator.resume_data := data;
                DataComparator.vacancy_data := data;
                DataComparator.lang := lang |} t vocabulary Evoc).
  cbn [DataComparator.resume_data DataComparator.vacancy_data].
  set (row := count_vector (t :: vocabulary) data) in *.
  assert (Hrow : sklearn.normalize_row row
                 = map (fun x => Qdiv (inject_Z x) n) row).
  { unfold sklearn.normalize_row.
    change (fold_left (fun s x => s + x * x)%Z row 0%Z)
      with (squared_norm row).
    destruct (Z.eqb_spec (squared_norm row) 0) as [E | _].
    - exfalso. unfold s in Hs. rewrite E in Hs. discriminate Hs.
    - reflexivity. }
  rewrite Hrow. f_equal. rewrite py_round2_unfold.
  rewrite (round_half_even_near _ 10000); [reflexivity | |].
  - rewrite (dot_self_scaled n row Hn0). fold s.
    apply Qle_lt_trans
      with (Qmult (Qmult (Qmake 99995 100000) 100) (Qmake 100 1));
      [discriminate |].
    apply Qmult_lt_compat_r; [reflexivity |].
    apply Qmult_lt_compat_r; [reflexivity |].
    apply Qlt_shift_div_l; assumption.
  - rewrite (dot_self_scaled n row Hn0). fold s.
    apply Qlt_le_trans
      with (Qmult (Qmult (Qmake 100005 100000) 100) (Qmake 100 1));
      [| discriminate].
    apply Qmult_lt_compat_r; [reflexivity |].
    apply Qmult_lt_compat_r; [reflexivity |].
    apply Qlt_shift_div_r; assumption.
Qed.

Lemma matchSimilarity_identical_texts_witness :
  Fixture.matchSimilarity
    {| DataComparator.resume_data := py "Python developer, Python/Docker";
       DataComparator.vacancy_data := py "Python developer, Python/Docker";
       DataComparator.lang := en |}
  = Ok 100%Q.
Proof.
  apply (@matchSimilarity_identical_texts Fixture.scikit
           (py "Python developer, Python/Docker") en);
    reflexivity.
Defined.

(** *** Symmetry *)












Section Symmetry.
Context `{Sklearn}.



End Symmetry.


(** ** Concatenation *)

(** Normalisation works character by character: the normalised form of a
    concatenation is the concatenation of the normalised forms, for every
    language value. *)
Theorem clean_text_app (text text' lang : str) :
  _clean_text (text ++ text') lang
  = _clean_text text lang ++ _clean_text text' lang.
Proof.
  destruct (supported lang) eqn:Hs.
  - destruct (supported_true lang Hs) as [-> | ->].
    + rewrite !clean_text_ru. unfold replace_char.
      rewrite filter_app, map_app. reflexivity.
    + rewrite !clean_text_en. unfold replace_char.
      rewrite filter_app, map_app. reflexivity.
  - rewrite !(clean_text_other _ lang Hs). unfold replace_char.
    apply map_app.
Qed.

Lemma py_in_app (x : str) (l l' : list str) :
  py_in x (l ++ l') = (py_in x l || py_in x l')%bool.
Proof.
  destruct (py_in x l) eqn:E; simpl.
  - apply py_in_true. apply in_app_iff. left. apply py_in_true. exact E.
  - apply py_in_false in E. destruct (py_in x l') eqn:E'.
    + apply py_in_true. apply in_app_iff. right. apply py_in_true. exact E'.
    + apply py_in_false in E'. apply py_in_false.
      rewrite in_app_iff. tauto.
Qed.

Lemma first_occurrences_from_filter (seen seen' stream : list str) :
  first_occurrences_from (seen ++ seen') stream
  = filter (fun x => negb (py_in x seen))
           (first_occurrences_from seen' stream).
Proof.
  revert seen'. induction stream as [| x rest IH]; intros seen'; simpl.
  - reflexivity.
  - rewrite filter_app, <- app_assoc, IH, py_in_app.
    destruct (py_in x seen) eqn:E, (py_in x seen') eqn:E'; simpl;
      rewrite ?E; reflexivity.
Qed.

(** Deduplicating a concatenation keeps the keywords of the first list,
    in their order, and appends the keywords of the second list that are
    not among them. *)
Theorem unique_tokens_app `{Builtins} (l l' : list str) :
  _unique_tokens (l ++ l')
  = _unique_tokens l
      ++ filter (fun k => negb (py_in k (_unique_tokens l)))
                (_unique_tokens l').
Proof.
  unfold _unique_tokens at 1. rewrite fold_left_app.
  fold (_unique_tokens l).
  rewrite (unique_loop l' (_unique_tokens l) (_unique_tokens l));
    [| tauto].
  f_equal. rewrite (unique_tokens_first_occurrences l').
  unfold first_occurrences.
  rewrite <- (first_occurrences_from_filter (_unique_tokens l) []).
  rewrite app_nil_r. reflexivity.
Qed.
